(** * botxlab dashboard: the project-content synchronisation layer of [App.tsx]

    A shallow embedding of the stateful core of [src/botxlab/src/App.tsx]:
    the repository listing with its org/user fallback ([fetchRepos]), the
    persisted catalog and its rehydration, the per-tab content loader
    ([loadContent]), the navigation handler ([handleOpenProject]) and the
    link and image rewriters handed to the markdown renderer
    ([markdownComponents]).

    TypeScript types are erased at run time, so whatever [res.json()] or
    [JSON.parse] returns is stored as it is.  Collections are therefore
    modelled as JSON values ([json]); only the repository selected through
    the navigation is a [Repo] record, as its interface declares. *)

From Stdlib Require Import ZArith List String Ascii Bool Lia DecimalString DecimalN.
From Stdlib Require Import Sorting.Sorted Sorting.Permutation.
From stdpp Require Import base gmap strings.
Import ListNotations.

Local Open Scope string_scope.
Local Open Scope Z_scope.

(** ** String primitives of the host language *)

Module JsString.

(** [s.startsWith(p)] *)
Definition startsWith (s p : string) : bool := String.prefix p s.

(** [s.replace(/^\.\//, '')]: the pattern is anchored and not global, so at
    most one leading "./" is removed. *)
Definition strip_dot_slash (s : string) : string :=
  match s with
  | String "." (String "/" rest) => rest
  | _ => s
  end.

(** Truthiness of a string: the empty string is falsy. *)
Definition truthy (s : string) : bool :=
  match s with
  | EmptyString => false
  | _ => true
  end.

(** [a || b] on strings. *)
Definition or_else (a b : string) : string := if truthy a then a else b.

End JsString.

(** ** The interfaces of section 1 of the source *)

Record License := { spdx_id : string }.

Record Repo := {
  id : Z;
  name : string;
  full_name : string;
  description : option string;
  stargazers_count : Z;
  updated_at : string;
  language : option string;
  html_url : string;
  default_branch : string;
  homepage : option string;
  license : option License;
  open_issues_count : Z;
  topics : list string
}.

(** [type ViewState] and [type TabState]: unions of string literals.  Each
    lives in a module of its own, since the tab names are also the names of
    state variables. *)
Module View.
Inductive ViewState := dashboard | project.
End View.

Module Tab.
Inductive TabState := readme | releases | commits | collaborators.
End Tab.

(** ** Render helpers: [markdownComponents] *)

Module Markdown.
Import JsString.

(** The [src] an [img] element is rendered with.  [src] is [props.src],
    [None] when the attribute is missing ([props.src || '']). *)
Definition img (currentRepo : option Repo) (src : option string) : string :=
  let url := or_else (default "" src) "" in
  match currentRepo with
  | Some repo =>
      if negb (startsWith url "http") && negb (startsWith url "data:") then
        let branch := or_else (default_branch repo) "master" in
        let cleanPath := strip_dot_slash url in
        "https://raw.githubusercontent.com/" ++ full_name repo ++ "/"
          ++ branch ++ "/" ++ cleanPath
      else url
  | None => url
  end.

(** The [href] an [a] element is rendered with. *)
Definition a (currentRepo : option Repo) (href : option string) : string :=
  let url := or_else (default "" href) "" in
  match currentRepo with
  | Some repo =>
      if negb (startsWith url "http") && negb (startsWith url "#")
         && negb (startsWith url "mailto:") then
        let branch := or_else (default_branch repo) "master" in
        let cleanPath := strip_dot_slash url in
        "https://github.com/" ++ full_name repo ++ "/blob/"
          ++ branch ++ "/" ++ cleanPath
      else url
  | None => url
  end.

(** The rewriter of the specification, one function for both elements. *)
Definition rewrite (image : bool) (currentRepo : option Repo) (url : string) : string :=
  if image then img currentRepo (Some url) else a currentRepo (Some url).

End Markdown.

(** ** What the specification calls an absolute URL

    Section 4.4 speaks of "absolute URLs (scheme present)".  A scheme is
    read as in RFC 3986: a letter, then letters, digits, "+", "-" or ".",
    closed by a colon. *)

Module UrlSpec.

Definition is_alpha (c : ascii) : bool :=
  let n := nat_of_ascii c in
  ((65 <=? n) && (n <=? 90) || (97 <=? n) && (n <=? 122))%nat.

Definition is_scheme_char (c : ascii) : bool :=
  let n := nat_of_ascii c in
  (is_alpha c || (48 <=? n) && (n <=? 57)
   || (n =? 43) || (n =? 45) || (n =? 46))%nat.

Fixpoint scheme_tail (s : string) : bool :=
  match s with
  | EmptyString => false
  | String c rest =>
      if Ascii.eqb c ":" then true
      else if is_scheme_char c then scheme_tail rest else false
  end.

Definition has_scheme (s : string) : bool :=
  match s with
  | String c rest => is_alpha c && scheme_tail rest
  | EmptyString => false
  end.

Definition fragment_only (s : string) : bool := JsString.startsWith s "#".
Definition is_mailto (s : string) : bool := JsString.startsWith s "mailto:".

(** The inputs rule 1 of section 4.4 lets through. *)
Definition passes_through (s : string) : bool :=
  has_scheme s || fragment_only s || is_mailto s.

End UrlSpec.

(** ** JSON values and the host's [JSON] object

    The values [res.json()] and [JSON.parse] produce.  Numbers are integers
    written in plain decimal, which is all the listings of the data source
    carry; strings are byte strings, and an object keeps its members in the
    order of the text. *)

Unset Elimination Schemes.
Inductive json : Type :=
| JNull
| JBool (b : bool)
| JNum (n : Z)
| JStr (s : string)
| JArr (items : list json)
| JObj (members : list (string * json)).
Set Elimination Schemes.

Module JSON.

Definition dquote : ascii := ascii_of_nat 34.
Definition backslash : ascii := ascii_of_nat 92.

Definition hex_digit (n : nat) : ascii :=
  match String.get n "0123456789abcdef" with
  | Some c => c
  | None => "0"%char
  end.

(** One character of a string literal, as [JSON.stringify] writes it. *)
Definition quote_char (c : ascii) : string :=
  let n := nat_of_ascii c in
  if Ascii.eqb c dquote then String backslash (String dquote EmptyString)
  else if Ascii.eqb c backslash then String backslash (String backslash EmptyString)
  else if (n =? 8)%nat then String backslash "b"
  else if (n =? 9)%nat then String backslash "t"
  else if (n =? 10)%nat then String backslash "n"
  else if (n =? 12)%nat then String backslash "f"
  else if (n =? 13)%nat then String backslash "r"
  else if (n <? 32)%nat then
    String backslash
      (String "u" (String "0" (String "0"
         (String (hex_digit (n / 16)) (String (hex_digit (n mod 16)) EmptyString)))))
  else String c EmptyString.

Fixpoint quote_chars (s : string) : string :=
  match s with
  | EmptyString => String dquote EmptyString
  | String c rest => quote_char c ++ quote_chars rest
  end.

Definition quote (s : string) : string := String dquote (quote_chars s).

Definition print_N (n : N) : string := NilEmpty.string_of_uint (N.to_uint n).

Definition print_Z (z : Z) : string :=
  match z with
  | Zneg p => String "-" (print_N (Npos p))
  | _ => print_N (Z.to_N z)
  end.

(** [JSON.stringify(v)] *)
Fixpoint stringify (v : json) : string :=
  match v with
  | JNull => "null"
  | JBool true => "true"
  | JBool false => "false"
  | JNum n => print_Z n
  | JStr s => quote s
  | JArr items => "[" ++ String.concat "," (List.map stringify items) ++ "]"
  | JObj members =>
      "{" ++ String.concat ","
               (List.map (fun '(k, x) => quote k ++ ":" ++ stringify x) members)
          ++ "}"
  end.

Definition is_ws (c : ascii) : bool :=
  let n := nat_of_ascii c in
  ((n =? 32) || (n =? 9) || (n =? 10) || (n =? 13))%nat.

Fixpoint skip_ws (s : string) : string :=
  match s with
  | String c rest => if is_ws c then skip_ws rest else s
  | EmptyString => s
  end.

Definition is_digit (c : ascii) : bool :=
  let n := nat_of_ascii c in ((48 <=? n) && (n <=? 57))%nat.

Fixpoint span_digits (s : string) : string * string :=
  match s with
  | String c rest =>
      if is_digit c then
        let (d, r) := span_digits rest in (String c d, r)
      else (EmptyString, s)
  | EmptyString => (EmptyString, EmptyString)
  end.

(** An unsigned integer token: digits, with no leading zero in front of
    another digit; [digits_value] is its value. *)
Definition digits_value (d : string) : option N :=
  match d with
  | EmptyString => None
  | String c more =>
      if Ascii.eqb c "0" && negb (String.eqb more EmptyString) then None
      else
        match NilEmpty.uint_of_string d with
        | Some u => Some (N.of_uint u)
        | None => None
        end
  end.

Definition parse_N (s : string) : option (N * string) :=
  let (d, r) := span_digits s in
  match digits_value d with
  | Some n => Some (n, r)
  | None => None
  end.

Definition hex_value (c : ascii) : option nat :=
  let n := nat_of_ascii c in
  if ((48 <=? n) && (n <=? 57))%nat then Some (n - 48)%nat
  else if ((97 <=? n) && (n <=? 102))%nat then Some (n - 87)%nat
  else if ((65 <=? n) && (n <=? 70))%nat then Some (n - 55)%nat
  else None.

Definition hex4 (a b c d : ascii) : option nat :=
  match hex_value a, hex_value b, hex_value c, hex_value d with
  | Some x, Some y, Some z, Some w => Some (((x * 16 + y) * 16 + z) * 16 + w)%nat
  | _, _, _, _ => None
  end.

Definition cons_char (c : ascii) (r : option (string * string)) : option (string * string) :=
  match r with
  | Some (str, rest) => Some (String c str, rest)
  | None => None
  end.

(** The body of a string literal, after its opening quote.  Escapes above
    the ASCII range are not modelled. *)
Fixpoint parse_chars (s : string) : option (string * string) :=
  match s with
  | EmptyString => None
  | String c rest =>
      if Ascii.eqb c dquote then Some (EmptyString, rest)
      else if Ascii.eqb c backslash then
        match rest with
        | String e rest1 =>
            if Ascii.eqb e dquote then cons_char dquote (parse_chars rest1)
            else if Ascii.eqb e backslash then cons_char backslash (parse_chars rest1)
            else if Ascii.eqb e "/" then cons_char "/" (parse_chars rest1)
            else if Ascii.eqb e "b" then cons_char (ascii_of_nat 8) (parse_chars rest1)
            else if Ascii.eqb e "t" then cons_char (ascii_of_nat 9) (parse_chars rest1)
            else if Ascii.eqb e "n" then cons_char (ascii_of_nat 10) (parse_chars rest1)
            else if Ascii.eqb e "f" then cons_char (ascii_of_nat 12) (parse_chars rest1)
            else if Ascii.eqb e "r" then cons_char (ascii_of_nat 13) (parse_chars rest1)
            else if Ascii.eqb e "u" then
              match rest1 with
              | String h1 (String h2 (String h3 (String h4 rest2))) =>
                  match hex4 h1 h2 h3 h4 with
                  | Some n =>
                      if (n <? 128)%nat
                      then cons_char (ascii_of_nat n) (parse_chars rest2)
                      else None
                  | None => None
                  end
              | _ => None
              end
            else None
        | EmptyString => None
        end
      else if (nat_of_ascii c <? 32)%nat then None
      else cons_char c (parse_chars rest)
  end.

(** [expect p s]: the rest of [s] after the literal [p]. *)
Fixpoint expect (p s : string) : option string :=
  match p with
  | EmptyString => Some s
  | String c p' =>
      match s with
      | String d s' => if Ascii.eqb c d then expect p' s' else None
      | EmptyString => None
      end
  end.

Definition literal (p : string) (v : json) (s : string) : option (json * string) :=
  match expect p s with
  | Some r => Some (v, r)
  | None => None
  end.

(** [closing c s]: the rest of [s] after blanks and the character [c]. *)
Definition closing (c : ascii) (s : string) : option string :=
  match skip_ws s with
  | String d r => if Ascii.eqb d c then Some r else None
  | EmptyString => None
  end.

Fixpoint parse_value (fuel : nat) (s : string) : option (json * string) :=
  match fuel with
  | O => None
  | S fuel =>
      match skip_ws s with
      | EmptyString => None
      | String c rest =>
          if Ascii.eqb c "n" then literal "ull" JNull rest
          else if Ascii.eqb c "t" then literal "rue" (JBool true) rest
          else if Ascii.eqb c "f" then literal "alse" (JBool false) rest
          else if Ascii.eqb c dquote then
            match parse_chars rest with
            | Some (str, r) => Some (JStr str, r)
            | None => None
            end
          else if Ascii.eqb c "[" then
            match closing "]" rest with
            | Some r => Some (JArr [], r)
            | None =>
                match parse_elements fuel rest with
                | Some (l, r) => Some (JArr l, r)
                | None => None
                end
            end
          else if Ascii.eqb c "{" then
            match closing "}" rest with
            | Some r => Some (JObj [], r)
            | None =>
                match parse_members fuel rest with
                | Some (m, r) => Some (JObj m, r)
                | None => None
                end
            end
          else if Ascii.eqb c "-" then
            match parse_N rest with
            | Some (n, r) => Some (JNum (- Z.of_N n), r)
            | None => None
            end
          else
            match parse_N (String c rest) with
            | Some (n, r) => Some (JNum (Z.of_N n), r)
            | None => None
            end
      end
  end
with parse_elements (fuel : nat) (s : string) : option (list json * string) :=
  match fuel with
  | O => None
  | S fuel =>
      match parse_value fuel s with
      | Some (v, r) =>
          match skip_ws r with
          | String c r1 =>
              if Ascii.eqb c "," then
                match parse_elements fuel r1 with
                | Some (l, r2) => Some (v :: l, r2)
                | None => None
                end
              else if Ascii.eqb c "]" then Some ([v], r1)
              else None
          | EmptyString => None
          end
      | None => None
      end
  end
with parse_members (fuel : nat) (s : string) : option (list (string * json) * string) :=
  match fuel with
  | O => None
  | S fuel =>
      match skip_ws s with
      | String q r0 =>
          if Ascii.eqb q dquote then
            match parse_chars r0 with
            | Some (k, r1) =>
                match closing ":" r1 with
                | Some r2 =>
                    match parse_value fuel r2 with
                    | Some (v, r3) =>
                        match skip_ws r3 with
                        | String c r4 =>
                            if Ascii.eqb c "," then
                              match parse_members fuel r4 with
                              | Some (m, r5) => Some ((k, v) :: m, r5)
                              | None => None
                              end
                            else if Ascii.eqb c "}" then Some ([(k, v)], r4)
                            else None
                        | EmptyString => None
                        end
                    | None => None
                    end
                | None => None
                end
            | None => None
            end
          else None
      | EmptyString => None
      end
  end.

(** [JSON.parse(text)]; [None] stands for the [SyntaxError] it throws. *)
Definition parse (text : string) : option json :=
  match parse_value (S (String.length text)) text with
  | Some (v, r) =>
      match skip_ws r with
      | EmptyString => Some v
      | _ => None
      end
  | None => None
  end.

End JSON.

(** ** Exceptions and the host operations the code applies to dynamic values *)

Inductive ErrorKind := Error | TypeError | SyntaxError | QuotaExceededError.

(** A thrown value; [message] is [err.message]. *)
Record Exn := { kind : ErrorKind; message : string }.

Module Js.

(** Texts of the errors the engine itself raises.  They differ between
    engines; these stand for whatever the engine says. *)
Definition null_access : Exn :=
  {| kind := TypeError; message := "Cannot read properties of null" |}.
Definition not_a_function : Exn :=
  {| kind := TypeError; message := "is not a function" |}.
Definition bad_json : Exn :=
  {| kind := SyntaxError; message := "Unexpected token in JSON" |}.

(** [JSON.parse(text)] with its exception. *)
Definition JSON_parse (text : string) : Exn + json :=
  match JSON.parse text with
  | Some v => inr v
  | None => inl bad_json
  end.

(** Truthiness of a value. *)
Definition truthy (v : json) : bool :=
  match v with
  | JNull => false
  | JBool b => b
  | JNum n => negb (n =? 0)
  | JStr s => JsString.truthy s
  | JArr _ | JObj _ => true
  end.

(** Own property [k] of an object, the last member of that name winning. *)
Fixpoint member (k : string) (members : list (string * json)) : option json :=
  match members with
  | [] => None
  | (k', x) :: rest =>
      match member k rest with
      | Some y => Some y
      | None => if String.eqb k k' then Some x else None
      end
  end.

(** [v.k] for a property name [k]: [None] is [undefined]; reading a
    property of [null] throws. *)
Definition prop (v : json) (k : string) : Exn + option json :=
  match v with
  | JNull => inl null_access
  | JObj members => inr (member k members)
  | JArr items =>
      inr (if String.eqb k "length" then Some (JNum (Z.of_nat (List.length items))) else None)
  | JStr s =>
      inr (if String.eqb k "length" then Some (JNum (Z.of_nat (String.length s))) else None)
  | JBool _ | JNum _ => inr None
  end.

(** [data.length === 0] *)
Definition length_is_zero (data : json) : Exn + bool :=
  match prop data "length" with
  | inl e => inl e
  | inr (Some (JNum n)) => inr (n =? 0)
  | inr _ => inr false
  end.

(** [String(v)], as a template literal or [ToPrimitive] produces it. *)
Fixpoint to_string (v : json) : string :=
  match v with
  | JNull => "null"
  | JBool true => "true"
  | JBool false => "false"
  | JNum n => JSON.print_Z n
  | JStr s => s
  | JArr items =>
      String.concat ","
        (List.map (fun x => match x with JNull => EmptyString | _ => to_string x end) items)
  | JObj _ => "[object Object]"
  end.

(** The largest time value a [Date] holds, in milliseconds. *)
Definition max_time : Z := 8640000000000000.

Definition time_clip (n : Z) : option Z :=
  if (Z.abs n <=? max_time) then Some n else None.

End Js.

Section HostClock.

(** [Date.parse] is the engine's; [None] stands for [NaN]. *)
Variable Date_parse : string -> option Z.

(** [new Date(x).getTime()], [x] possibly [undefined]. *)
Definition Date_getTime (x : option json) : option Z :=
  match x with
  | None => None
  | Some JNull => Some 0
  | Some (JBool b) => Some (if b then 1 else 0)
  | Some (JNum n) => Js.time_clip n
  | Some (JStr s) => Date_parse s
  | Some v => Date_parse (Js.to_string v)
  end.

(** [new Date(r.updated_at).getTime()] *)
Definition updated_time (r : json) : Exn + option Z :=
  match Js.prop r "updated_at" with
  | inl e => inl e
  | inr x => inr (Date_getTime x)
  end.

(** The comparator handed to [data.sort]: the time of [b] minus the time of
    [a], [None] ([NaN]) when either is not a date. *)
Definition by_update_date (a b : json) : Exn + option Z :=
  match updated_time b with
  | inl e => inl e
  | inr tb =>
      match updated_time a with
      | inl e => inl e
      | inr ta =>
          inr (match tb, ta with
               | Some x, Some y => Some (x - y)
               | _, _ => None
               end)
      end
  end.

End HostClock.

(** [Array.prototype.sort] with a comparator.  The sort is stable and a
    comparator result of [NaN] counts as zero.  For a consistent comparator
    the outcome of a stable sort is fixed by the language; it is computed
    here by insertion. *)
Module JsArray.

Definition sorts_after (v : option Z) : bool :=
  match v with
  | Some n => 0 <? n
  | None => false
  end.

Fixpoint insert (cmp : json -> json -> Exn + option Z) (x : json) (l : list json)
  : Exn + list json :=
  match l with
  | [] => inr [x]
  | y :: rest =>
      match cmp x y with
      | inl e => inl e
      | inr v =>
          if sorts_after v then
            match insert cmp x rest with
            | inl e => inl e
            | inr r => inr (y :: r)
            end
          else inr (x :: l)
      end
  end.

Fixpoint sort_items (cmp : json -> json -> Exn + option Z) (l : list json)
  : Exn + list json :=
  match l with
  | [] => inr []
  | x :: rest =>
      match sort_items cmp rest with
      | inl e => inl e
      | inr s => insert cmp x s
      end
  end.

(** [data.sort(cmp)] on whatever [data] is. *)
Definition sort (cmp : json -> json -> Exn + option Z) (data : json) : Exn + json :=
  match data with
  | JArr items =>
      match sort_items cmp items with
      | inl e => inl e
      | inr s => inr (JArr s)
      end
  | JNull => inl Js.null_access
  | _ => inl Js.not_a_function
  end.

End JsArray.

(** ** Component state

    One field per [useState] of [App].  The four collections hold whatever
    the host handed back; [contentError] is [None] for [null]. *)

Module TocItem.
Record TocItem := { id : string; text : string; level : Z }.
End TocItem.

Module Sync.
Inductive SyncStatus := success | failed | loading | idle.
End Sync.

Record Config := { token : string; org : string }.

Record AppState := {

  repos : json;
  config : Config;
  currentRepo : option Repo;
  view : View.ViewState;
  activeTab : Tab.TabState;
  searchTerm : string;
  isSidebarOpen : bool;
  isSettingsOpen : bool;
  isMobileTabMenuOpen : bool;
  reposLoading : bool;
  contentLoading : bool;
  syncStatus : Sync.SyncStatus;
  repoCopied : bool;
  readmeContent : string;
  toc : list TocItem.TocItem;
  releases : json;
  commits : json;
  collaborators : json;
  contentError : option string

}.

(** The setters [useState] returns. *)

Module Setters.

Definition setRepos (x : json) (st : AppState) : AppState :=
  {| repos := x; config := config st; currentRepo := currentRepo st; view := view st;
     activeTab := activeTab st; searchTerm := searchTerm st; isSidebarOpen :=
     isSidebarOpen st; isSettingsOpen := isSettingsOpen st; isMobileTabMenuOpen :=
     isMobileTabMenuOpen st; reposLoading := reposLoading st; contentLoading :=
     contentLoading st; syncStatus := syncStatus st; repoCopied := repoCopied st;
     readmeContent := readmeContent st; toc := toc st; releases := releases st; commits :=
     commits st; collaborators := collaborators st; contentError := contentError st |}.


Definition setCurrentRepo (x : option Repo) (st : AppState) : AppState :=
  {| repos := repos st; config := config st; currentRepo := x; view := view st; activeTab
     := activeTab st; searchTerm := searchTerm st; isSidebarOpen := isSidebarOpen st;
     isSettingsOpen := isSettingsOpen st; isMobileTabMenuOpen := isMobileTabMenuOpen st;
     reposLoading := reposLoading st; contentLoading := contentLoading st; syncStatus :=
     syncStatus st; repoCopied := repoCopied st; readmeContent := readmeContent st; toc :=
     toc st; releases := releases st; commits := commits st; collaborators :=
     collaborators st; contentError := contentError st |}.

Definition setView (x : View.ViewState) (st : AppState) : AppState :=
  {| repos := repos st; config := config st; currentRepo := currentRepo st; view := x;
     activeTab := activeTab st; searchTerm := searchTerm st; isSidebarOpen :=
     isSidebarOpen st; isSettingsOpen := isSettingsOpen st; isMobileTabMenuOpen :=
     isMobileTabMenuOpen st; reposLoading := reposLoading st; contentLoading :=
     contentLoading st; syncStatus := syncStatus st; repoCopied := repoCopied st;
     readmeContent := readmeContent st; toc := toc st; releases := releases st; commits :=
     commits st; collaborators := collaborators st; contentError := contentError st |}.

Definition setActiveTab (x : Tab.TabState) (st : AppState) : AppState :=
  {| repos := repos st; config := config st; currentRepo := currentRepo st; view := view
     st; activeTab := x; searchTerm := searchTerm st; isSidebarOpen := isSidebarOpen st;
     isSettingsOpen := isSettingsOpen st; isMobileTabMenuOpen := isMobileTabMenuOpen st;
     reposLoading := reposLoading st; contentLoading := contentLoading st; syncStatus :=
     syncStatus st; repoCopied := repoCopied st; readmeContent := readmeContent st; toc :=
     toc st; releases := releases st; commits := commits st; collaborators :=
     collaborators st; contentError := contentError st |}.

Definition setSearchTerm (x : string) (st : AppState) : AppState :=
  {| repos := repos st; config := config st; currentRepo := currentRepo st; view := view
     st; activeTab := activeTab st; searchTerm := x; isSidebarOpen := isSidebarOpen st;
     isSettingsOpen := isSettingsOpen st; isMobileTabMenuOpen := isMobileTabMenuOpen st;
     reposLoading := reposLoading st; contentLoading := contentLoading st; syncStatus :=
     syncStatus st; repoCopied := repoCopied st; readmeContent := readmeContent st; toc :=
     toc st; releases := releases st; commits := commits st; collaborators :=
     collaborators st; contentError := contentError st |}.

Definition setIsSidebarOpen (x : bool) (st : AppState) : AppState :=
  {| repos := repos st; config := config st; currentRepo := currentRepo st; view := view
     st; activeTab := activeTab st; searchTerm := searchTerm st; isSidebarOpen := x;
     isSettingsOpen := isSettingsOpen st; isMobileTabMenuOpen := isMobileTabMenuOpen st;
     reposLoading := reposLoading st; contentLoading := contentLoading st; syncStatus :=
     syncStatus st; repoCopied := repoCopied st; readmeContent := readmeContent st; toc :=
     toc st; releases := releases st; commits := commits st; collaborators :=
     collaborators st; contentError := contentError st |}.


Definition setIsMobileTabMenuOpen (x : bool) (st : AppState) : AppState :=
  {| repos := repos st; config := config st; currentRepo := currentRepo st; view := view
     st; activeTab := activeTab st; searchTerm := searchTerm st; isSidebarOpen :=
     isSidebarOpen st; isSettingsOpen := isSettingsOpen st; isMobileTabMenuOpen := x;
     reposLoading := reposLoading st; contentLoading := contentLoading st; syncStatus :=
     syncStatus st; repoCopied := repoCopied st; readmeContent := readmeContent st; toc :=
     toc st; releases := releases st; commits := commits st; collaborators :=
     collaborators st; contentError := contentError st |}.

Definition setReposLoading (x : bool) (st : AppState) : AppState :=
  {| repos := repos st; config := config st; currentRepo := currentRepo st; view := view
     st; activeTab := activeTab st; searchTerm := searchTerm st; isSidebarOpen :=
     isSidebarOpen st; isSettingsOpen := isSettingsOpen st; isMobileTabMenuOpen :=
     isMobileTabMenuOpen st; reposLoading := x; contentLoading := contentLoading st;
     syncStatus := syncStatus st; repoCopied := repoCopied st; readmeContent :=
     readmeContent st; toc := toc st; releases := releases st; commits := commits st;
     collaborators := collaborators st; contentError := contentError st |}.

Definition setContentLoading (x : bool) (st : AppState) : AppState :=
  {| repos := repos st; config := config st; currentRepo := currentRepo st; view := view
     st; activeTab := activeTab st; searchTerm := searchTerm st; isSidebarOpen :=
     isSidebarOpen st; isSettingsOpen := isSettingsOpen st; isMobileTabMenuOpen :=
     isMobileTabMenuOpen st; reposLoading := reposLoading st; contentLoading := x;
     syncStatus := syncStatus st; repoCopied := repoCopied st; readmeContent :=
     readmeContent st; toc := toc st; releases := releases st; commits := commits st;
     collaborators := collaborators st; contentError := contentError st |}.

Definition setSyncStatus (x : Sync.SyncStatus) (st : AppState) : AppState :=
  {| repos := repos st; config := config st; currentRepo := currentRepo st; view := view
     st; activeTab := activeTab st; searchTerm := searchTerm st; isSidebarOpen :=
     isSidebarOpen st; isSettingsOpen := isSettingsOpen st; isMobileTabMenuOpen :=
     isMobileTabMenuOpen st; reposLoading := reposLoading st; contentLoading :=
     contentLoading st; syncStatus := x; repoCopied := repoCopied st; readmeContent :=
     readmeContent st; toc := toc st; releases := releases st; commits := commits st;
     collaborators := collaborators st; contentError := contentError st |}.

Definition setRepoCopied (x : bool) (st : AppState) : AppState :=
  {| repos := repos st; config := config st; currentRepo := currentRepo st; view := view
     st; activeTab := activeTab st; searchTerm := searchTerm st; isSidebarOpen :=
     isSidebarOpen st; isSettingsOpen := isSettingsOpen st; isMobileTabMenuOpen :=
     isMobileTabMenuOpen st; reposLoading := reposLoading st; contentLoading :=
     contentLoading st; syncStatus := syncStatus st; repoCopied := x; readmeContent :=
     readmeContent st; toc := toc st; releases := releases st; commits := commits st;
     collaborators := collaborators st; contentError := contentError st |}.

Definition setReadmeContent (x : string) (st : AppState) : AppState :=
  {| repos := repos st; config := config st; currentRepo := currentRepo st; view := view
     st; activeTab := activeTab st; searchTerm := searchTerm st; isSidebarOpen :=
     isSidebarOpen st; isSettingsOpen := isSettingsOpen st; isMobileTabMenuOpen :=
     isMobileTabMenuOpen st; reposLoading := reposLoading st; contentLoading :=
     contentLoading st; syncStatus := syncStatus st; repoCopied := repoCopied st;
     readmeContent := x; toc := toc st; releases := releases st; commits := commits st;
     collaborators := collaborators st; contentError := contentError st |}.

Definition setToc (x : list TocItem.TocItem) (st : AppState) : AppState :=
  {| repos := repos st; config := config st; currentRepo := currentRepo st; view := view
     st; activeTab := activeTab st; searchTerm := searchTerm st; isSidebarOpen :=
     isSidebarOpen st; isSettingsOpen := isSettingsOpen st; isMobileTabMenuOpen :=
     isMobileTabMenuOpen st; reposLoading := reposLoading st; contentLoading :=
     contentLoading st; syncStatus := syncStatus st; repoCopied := repoCopied st;
     readmeContent := readmeContent st; toc := x; releases := releases st; commits :=
     commits st; collaborators := collaborators st; contentError := contentError st |}.

Definition setReleases (x : json) (st : AppState) : AppState :=
  {| repos := repos st; config := config st; currentRepo := currentRepo st; view := view
     st; activeTab := activeTab st; searchTerm := searchTerm st; isSidebarOpen :=
     isSidebarOpen st; isSettingsOpen := isSettingsOpen st; isMobileTabMenuOpen :=
     isMobileTabMenuOpen st; reposLoading := reposLoading st; contentLoading :=
     contentLoading st; syncStatus := syncStatus st; repoCopied := repoCopied st;
     readmeContent := readmeContent st; toc := toc st; releases := x; commits := commits
     st; collaborators := collaborators st; contentError := contentError st |}.

Definition setCommits (x : json) (st : AppState) : AppState :=
  {| repos := repos st; config := config st; currentRepo := currentRepo st; view := view
     st; activeTab := activeTab st; searchTerm := searchTerm st; isSidebarOpen :=
     isSidebarOpen st; isSettingsOpen := isSettingsOpen st; isMobileTabMenuOpen :=
     isMobileTabMenuOpen st; reposLoading := reposLoading st; contentLoading :=
     contentLoading st; syncStatus := syncStatus st; repoCopied := repoCopied st;
     readmeContent := readmeContent st; toc := toc st; releases := releases st; commits :=
     x; collaborators := collaborators st; contentError := contentError st |}.

Definition setCollaborators (x : json) (st : AppState) : AppState :=
  {| repos := repos st; config := config st; currentRepo := currentRepo st; view := view
     st; activeTab := activeTab st; searchTerm := searchTerm st; isSidebarOpen :=
     isSidebarOpen st; isSettingsOpen := isSettingsOpen st; isMobileTabMenuOpen :=
     isMobileTabMenuOpen st; reposLoading := reposLoading st; contentLoading :=
     contentLoading st; syncStatus := syncStatus st; repoCopied := repoCopied st;
     readmeContent := readmeContent st; toc := toc st; releases := releases st; commits :=
     commits st; collaborators := x; contentError := contentError st |}.

Definition setContentError (x : option string) (st : AppState) : AppState :=
  {| repos := repos st; config := config st; currentRepo := currentRepo st; view := view
     st; activeTab := activeTab st; searchTerm := searchTerm st; isSidebarOpen :=
     isSidebarOpen st; isSettingsOpen := isSettingsOpen st; isMobileTabMenuOpen :=
     isMobileTabMenuOpen st; reposLoading := reposLoading st; contentLoading :=
     contentLoading st; syncStatus := syncStatus st; repoCopied := repoCopied st;
     readmeContent := readmeContent st; toc := toc st; releases := releases st; commits :=
     commits st; collaborators := collaborators st; contentError := x |}.

End Setters.

(** ** The world around the component, and effectful code

    [localStorage] is a finite map from keys to strings, and [quota] tells
    which stores the host can hold: it is the host's to decide, by the size
    of the store or by a setting of the user.  Every request handed to
    [fetch] is recorded in [requests], oldest first, and what
    [console.error] receives in [console]. *)

Record Request := { url : string; headers : gmap string string }.

Record Response := { status : Z; body : string }.

(** [res.ok]: a status in the range 200 to 299. *)
Definition ok (res : Response) : bool := (200 <=? status res) && (status res <=? 299).

(** What a call to [fetch] settles to: a rejection (transport failure) or a
    response, whatever its status. *)
Inductive FetchOutcome :=
| Rejected (e : Exn)
| Resolved (res : Response).

(** The data source, seen from the client. *)
Definition Network : Type := Request -> FetchOutcome.

Record World := {
  app : AppState;
  localStorage : gmap string string;
  quota : gmap string string -> bool;
  requests : list Request;
  console : list Exn
}.

(** Computations that read and write the world and may throw. *)
Definition M (A : Type) : Type := World -> (Exn + A) * World.

#[export] Instance M_ret : MRet M := fun A x w => (inr x, w).

#[export] Instance M_bind : MBind M := fun A B k m w =>
  match m w with
  | (inl e, w') => (inl e, w')
  | (inr x, w') => k x w'
  end.

#[export] Instance M_throw : MThrow Exn M := fun A e w => (inl e, w).

(** [try { body } catch (e) { handler e } finally { final }] *)
Definition try_catch_finally {A} (body : M A) (handler : Exn -> M A) (final : M unit)
  : M A := fun w =>
  let (r, w1) :=
    match body w with
    | (inl e, w') => handler e w'
    | (inr x, w') => (inr x, w')
    end in
  match final w1 with
  | (inl e, w2) => (inl e, w2)
  | (inr _, w2) => (r, w2)
  end.

(** Lifting a pure computation that may throw. *)
Definition lift {A} (r : Exn + A) : M A := fun w => (r, w).

(** The current state, and a call to one of its setters. *)
Definition getState : M AppState := fun w => (inr (app w), w).

Definition update (f : AppState -> AppState) : M unit := fun w =>
  (inr tt, {| app := f (app w); localStorage := localStorage w; quota := quota w;
              requests := requests w; console := console w |}).

(** [localStorage.setItem(key, value)]: it throws, and stores nothing, when
    the host cannot hold the store with the new value. *)
Definition quota_exceeded : Exn :=
  {| kind := QuotaExceededError; message := "The quota has been exceeded." |}.

Definition localStorage_setItem (key value : string) : M unit := fun w =>
  let stored := <[key := value]> (localStorage w) in
  if quota w stored
  then (inr tt, {| app := app w; localStorage := stored; quota := quota w;
                   requests := requests w; console := console w |})
  else (inl quota_exceeded, w).

(** [console.error(e)] *)
Definition console_error (e : Exn) : M unit := fun w =>
  (inr tt, {| app := app w; localStorage := localStorage w; quota := quota w;
              requests := requests w; console := console w ++ [e] |}).

Definition send (req : Request) : M unit := fun w =>
  (inr tt, {| app := app w; localStorage := localStorage w; quota := quota w;
              requests := requests w ++ [req]; console := console w |}).

(** The value of an awaited [fetch] once it has settled. *)
Definition settled (o : FetchOutcome) : M Response :=
  match o with
  | Rejected e => mthrow e
  | Resolved res => mret res
  end.

(** [await fetch(url, { headers })] against a given data source. *)
Definition fetch (net : Network) (req : Request) : M Response :=
  send req ;; settled (net req).

(** [await res.json()] and [await res.text()] *)
Definition json_of (res : Response) : M json := lift (Js.JSON_parse (body res)).
Definition text_of (res : Response) : M string := mret (body res).

(** ** API helper: [getHeaders] *)

Definition getHeaders (cfg : Config) : gmap string string :=
  let headers : gmap string string := {[ "Accept" := "application/vnd.github.v3+json" ]} in
  if JsString.truthy (token cfg)
  then <[ "Authorization" := "Bearer " ++ token cfg ]> headers
  else headers.

(** ** Startup: the initialisers of [repos] and [config] *)

Definition cache_key : string := "botxlab_cache_v6".

(** [try { saved = getItem(key); return saved ? JSON.parse(saved) : [] }
     catch { return [] }] *)
Definition initial_repos (storage : gmap string string) : json :=
  match storage !! cache_key with
  | Some saved =>
      if JsString.truthy saved then
        match Js.JSON_parse saved with
        | inr v => v
        | inl _ => JArr []
        end
      else JArr []
  | None => JArr []
  end.

Definition initial_config (storage : gmap string string) : Config :=
  {| token := JsString.or_else (default "" (storage !! "botxlab_token")) "";
     org := JsString.or_else (default "" (storage !! "botxlab_org")) "botxlab" |}.

Definition initial_state (storage : gmap string string) : AppState :=
  {| repos := initial_repos storage;
     config := initial_config storage;
     currentRepo := None;
     view := View.dashboard;
     activeTab := Tab.readme;
     searchTerm := "";
     isSidebarOpen := false;
     isSettingsOpen := false;
     isMobileTabMenuOpen := false;
     reposLoading := false;
     contentLoading := false;
     syncStatus := Sync.idle;
     repoCopied := false;
     readmeContent := "";
     toc := [];
     releases := JArr [];
     commits := JArr [];
     collaborators := JArr [];
     contentError := None |}.

(** ** Fetch repositories: [fetchRepos] *)

Definition listing_query : string := "/repos?sort=updated&per_page=100&type=all".

Definition orgs_url (handle : string) : string :=
  "https://api.github.com/orgs/" ++ handle ++ listing_query.

Definition users_url (handle : string) : string :=
  "https://api.github.com/users/" ++ handle ++ listing_query.

(** The listing request for a handle on one of the two endpoints. *)
Definition listing_request (endpoint : string -> string) (cfg : Config) : Request :=
  {| url := endpoint (org cfg); headers := getHeaders cfg |}.

Section FetchRepos.

Variable Date_parse : string -> option Z.
Variable net : Network.

Definition fetchRepos : M unit :=
  update (Setters.setReposLoading true) ;;
  update (Setters.setSyncStatus Sync.loading) ;;
  try_catch_finally
    (st ← getState;
     let cfg := config st in
     res ← fetch net (listing_request orgs_url cfg);
     res ← (if status res =? 404
            then fetch net (listing_request users_url cfg)
            else mret res);
     (if negb (ok res)
      then mthrow {| kind := Error; message := "API Error: " ++ JSON.print_Z (status res) |}
      else mret tt) ;;
     data ← json_of res;
     processed ← lift (JsArray.sort (by_update_date Date_parse) data);
     update (Setters.setRepos processed) ;;
     localStorage_setItem cache_key (JSON.stringify processed) ;;
     update (Setters.setSyncStatus Sync.success))
    (fun error =>
       console_error error ;;
       update (Setters.setSyncStatus Sync.failed))
    (update (Setters.setReposLoading false)).

End FetchRepos.

(** ** Fetch project data: the content effect and [loadContent]

    [loadContent] is an [async] function: it runs up to its [await fetch],
    and the rest runs when the request settles.  A call therefore yields a
    [Pending] request: the request sent and the continuation that receives
    its outcome.  The tab and the repository are those of the render the
    effect belongs to; the continuation keeps them. *)

Record Pending := { request : Request; resume : FetchOutcome -> M unit }.

Definition await_fetch (req : Request) (k : FetchOutcome -> M unit) : M Pending :=
  send req ;; mret {| request := req; resume := k |}.

Definition repo_url (repo : Repo) : string :=
  "https://api.github.com/repos/" ++ full_name repo.

Definition loadContent (currentRepo : Repo) (activeTab : Tab.TabState)
    (headers : gmap string string) : M Pending :=
  update (Setters.setContentLoading true) ;;
  update (Setters.setContentError None) ;;
  (if activeTab is Tab.readme then update (Setters.setReadmeContent "") else mret tt) ;;
  let baseUrl := repo_url currentRepo in
  let guarded (k : Response -> M unit) (o : FetchOutcome) : M unit :=
    try_catch_finally
      (res ← settled o; k res)
      (fun err =>
         update (Setters.setContentError
                   (Some (JsString.or_else (message err) "Error fetching data"))))
      (update (Setters.setContentLoading false)) in
  match activeTab with
  | Tab.readme =>
      await_fetch
        {| url := baseUrl ++ "/readme";
           headers := <[ "Accept" := "application/vnd.github.v3.raw" ]> headers |}
        (guarded (fun res =>
           if negb (ok res)
           then mthrow {| kind := Error; message := "README not found" |}
           else text ← text_of res; update (Setters.setReadmeContent text)))
  | Tab.releases =>
      await_fetch {| url := baseUrl ++ "/releases"; headers := headers |}
        (guarded (fun res =>
           data ← json_of res;
           update (Setters.setReleases data) ;;
           empty ← lift (Js.length_is_zero data);
           if empty : bool
           then mthrow {| kind := Error; message := "No releases found" |}
           else mret tt))
  | Tab.commits =>
      await_fetch {| url := baseUrl ++ "/commits?per_page=20"; headers := headers |}
        (guarded (fun res =>
           data ← json_of res;
           update (Setters.setCommits data)))
  | Tab.collaborators =>
      await_fetch {| url := baseUrl ++ "/contributors"; headers := headers |}
        (guarded (fun res =>
           data ← json_of res;
           update (Setters.setCollaborators data) ;;
           empty ← lift (Js.length_is_zero data);
           if empty : bool
           then mthrow {| kind := Error; message := "No contributors found" |}
           else mret tt))
  end.

(** A whole call against a data source that answers at once: the request
    is sent and nothing else happens before it settles. *)
Definition loadContent_now (net : Network) (currentRepo : Repo)
    (activeTab : Tab.TabState) (headers : gmap string string) : M unit :=
  p ← loadContent currentRepo activeTab headers;
  resume p (net (request p)).

(** ** Handlers *)

Definition handleOpenProject (repo : Repo) : M unit :=
  update (Setters.setCurrentRepo (Some repo)) ;;
  update (Setters.setView View.project) ;;
  update (Setters.setActiveTab Tab.readme) ;;
  update (Setters.setIsSidebarOpen false) ;;
  update (Setters.setIsMobileTabMenuOpen false) ;;
  update (Setters.setSearchTerm "").

(** ** The component over time

    The running component: its world and the content requests still in
    flight, oldest first.  React runs the content effect after a render in
    which the view, the tab, the repository or the headers changed; here the
    effect is an event of its own, so a trace says when it runs. *)

Record System := { world : World; inflight : list Pending }.

Inductive Event :=
| OpenProject (repo : Repo)
| SelectTab (tab : Tab.TabState)
| ShowDashboard
| ContentEffect
| Settle (i : nat) (o : FetchOutcome).

(** The world after a handler or a continuation has run. *)
Definition exec {A} (m : M A) (w : World) : World := snd (m w).

(** [if (view === 'project' && currentRepo) loadContent()] *)
Definition contentEffect (s : System) : System :=
  let st := app (world s) in
  match view st, currentRepo st with
  | View.project, Some repo =>
      match loadContent repo (activeTab st) (getHeaders (config st)) (world s) with
      | (inr p, w) => {| world := w; inflight := inflight s ++ [p] |}
      | (inl _, w) => {| world := w; inflight := inflight s |}
      end
  | _, _ => s
  end.

Definition step (s : System) (ev : Event) : System :=
  match ev with
  | OpenProject repo =>
      {| world := exec (handleOpenProject repo) (world s); inflight := inflight s |}
  | SelectTab tab =>
      {| world := exec (update (Setters.setActiveTab tab)) (world s);
         inflight := inflight s |}
  | ShowDashboard =>
      {| world := exec (update (Setters.setView View.dashboard)) (world s);
         inflight := inflight s |}
  | ContentEffect => contentEffect s
  | Settle i o =>
      match inflight s !! i with
      | Some p =>
          {| world := exec (resume p o) (world s); inflight := delete i (inflight s) |}
      | None => s
      end
  end.

Definition run (s : System) (trace : list Event) : System := fold_left step trace s.

(** ** What the project view shows

    The content pane of the project view: the loading notice, the error
    panel, or the pane of the active tab.  The list panes map over their
    collection, which throws when it is not an array. *)

Inductive Pane :=
| Loading
| Failed (reason : string)
| ReadmePane (markdown : string)
| ReleasesPane (items : list json)
| CommitsPane (items : list json)
| CollaboratorsPane (items : list json).

(** [v.map(...)] and [v.filter(...)] need an array. *)
Definition items_of (v : json) : Exn + list json :=
  match v with
  | JArr items => inr items
  | JNull => inl Js.null_access
  | _ => inl Js.not_a_function
  end.

Definition list_pane (pane : list json -> Pane) (v : json) : Exn + Pane :=
  match items_of v with
  | inl e => inl e
  | inr items => inr (pane items)
  end.

Definition tab_pane (st : AppState) : Exn + Pane :=
  match activeTab st with
  | Tab.readme => inr (ReadmePane (readmeContent st))
  | Tab.releases => list_pane ReleasesPane (releases st)
  | Tab.commits => list_pane CommitsPane (commits st)
  | Tab.collaborators => list_pane CollaboratorsPane (collaborators st)
  end.

Definition content_pane (st : AppState) : Exn + Pane :=
  if contentLoading st then inr Loading
  else
    match contentError st with
    | Some reason => if JsString.truthy reason then inr (Failed reason) else tab_pane st
    | None => tab_pane st
    end.

(** ** Utils: [stringToColor] and [timeAgo] *)

Module Utils.

(** [ToInt32]: an integer brought into the signed 32-bit range. *)
Definition to_int32 (z : Z) : Z := (z + 2 ^ 31) mod 2 ^ 32 - 2 ^ 31.

(** [x << 5]: both the operand and the result are 32-bit integers. *)
Definition shift_left_5 (x : Z) : Z := to_int32 (to_int32 x * 32).

Definition colors : list string :=
  ["#58a6ff"; "#3fb950"; "#d29922"; "#db6d28"; "#f85149"; "#a371f7"].

Definition neutral : string := "#30363d".

(** The loop of [stringToColor]:
    [hash = str.charCodeAt(i) + ((hash << 5) - hash)].  Only the shift wraps;
    the subtraction and the sum are ordinary arithmetic. *)
Fixpoint hash_chars (hash : Z) (str : string) : Z :=
  match str with
  | EmptyString => hash
  | String c rest =>
      hash_chars (Z.of_nat (nat_of_ascii c) + (shift_left_5 hash - hash)) rest
  end.

(** [stringToColor(str)]; [None] as argument is [null], [None] as result is
    the [undefined] an index outside [colors] would give. *)
Definition stringToColor (str : option string) : option string :=
  match str with
  | None => Some neutral
  | Some s =>
      if JsString.truthy s then
        let hash := hash_chars 0 s in
        nth_error colors (Z.to_nat (Z.abs hash mod Z.of_nat (List.length colors)))
      else Some neutral
  end.

End Utils.

Section TimeAgo.

Variable Date_parse : string -> option Z.

(** [new Date().getTime()]: the time of the call, in milliseconds. *)
Variable now : Z.

(** [Math.floor((new Date().getTime() - date.getTime()) / 1000)]; [None] is
    [NaN]. *)
Definition elapsed_seconds (dateString : string) : option Z :=
  match Date_getTime Date_parse (Some (JStr dateString)) with
  | Some t => Some ((now - t) / 1000)
  | None => None
  end.

(** [seconds > k]: false when [seconds] is [NaN]. *)
Definition exceeds (seconds : option Z) (k : Z) : bool :=
  match seconds with
  | Some s => k <? s
  | None => false
  end.

(** [Math.floor(seconds / k) + unit] *)
Definition in_units (seconds : option Z) (k : Z) (unit : string) : string :=
  match seconds with
  | Some s => JSON.print_Z (s / k) ++ unit
  | None => "NaN" ++ unit
  end.

Definition timeAgo (dateString : string) : string :=
  let seconds := elapsed_seconds dateString in
  if exceeds seconds 31536000 then in_units seconds 31536000 "y ago"
  else if exceeds seconds 2592000 then in_units seconds 2592000 "mo ago"
  else if exceeds seconds 86400 then in_units seconds 86400 "d ago"
  else if exceeds seconds 3600 then in_units seconds 3600 "h ago"
  else if exceeds seconds 60 then in_units seconds 60 "m ago"
  else "Just now".

End TimeAgo.

(** ** Memoized computations: [filteredRepos] and [stats] *)

Module Memo.

Definition undefined_access : Exn :=
  {| kind := TypeError; message := "Cannot read properties of undefined" |}.

(** [s.toLowerCase()], for the letters A to Z; other characters stay. *)
Definition lower_char (c : ascii) : ascii :=
  let n := nat_of_ascii c in
  if ((65 <=? n) && (n <=? 90))%nat then ascii_of_nat (n + 32) else c.

Fixpoint toLowerCase (s : string) : string :=
  match s with
  | EmptyString => EmptyString
  | String c rest => String (lower_char c) (toLowerCase rest)
  end.

(** [s.includes(needle)] *)
Fixpoint includes (s needle : string) : bool :=
  String.prefix needle s
  || match s with
     | String _ rest => includes rest needle
     | EmptyString => false
     end.

(** [r.name.toLowerCase()]: it throws unless [r.name] is a string. *)
Definition lower_name (r : json) : Exn + string :=
  match Js.prop r "name" with
  | inl e => inl e
  | inr None => inl undefined_access
  | inr (Some JNull) => inl Js.null_access
  | inr (Some (JStr n)) => inr (toLowerCase n)
  | inr (Some _) => inl Js.not_a_function
  end.

(** The callback of the filter. *)
Definition name_matches (searchTerm : string) (r : json) : Exn + bool :=
  match lower_name r with
  | inl e => inl e
  | inr n => inr (includes n (toLowerCase searchTerm))
  end.

(** [items.filter(keep)], the callback applied to the items in order. *)
Fixpoint filter_items (keep : json -> Exn + bool) (items : list json)
  : Exn + list json :=
  match items with
  | [] => inr []
  | r :: rest =>
      match keep r with
      | inl e => inl e
      | inr b =>
          match filter_items keep rest with
          | inl e => inl e
          | inr kept => inr (if b then r :: kept else kept)
          end
      end
  end.

(** [repos.filter(...)]; like [map], [reduce] and [slice(..).map], it needs
    an array. *)
Definition filteredRepos (repos : json) (searchTerm : string) : Exn + list json :=
  match items_of repos with
  | inl e => inl e
  | inr items => filter_items (name_matches searchTerm) items
  end.

(** The host holds a number as a binary64 float.  An integer up to 2^53 in
    magnitude is held as it is; a larger one as the nearest integer with 53
    significant bits, the even one of two that are as near.  (From 2^1024
    on the host holds Infinity, which [JNum] does not have: such
    magnitudes are outside this model.) *)
Definition to_binary64 (z : Z) : Z :=
  let m := Z.abs z in
  if m <=? 2 ^ 53 then z
  else
    let unit := 2 ^ (Z.log2 m - 52) in
    let q := m / unit in
    let r := m mod unit in
    let nearest :=
      if 2 * r <? unit then q
      else if unit <? 2 * r then q + 1
      else if Z.even q then q else q + 1 in
    Z.sgn z * (nearest * unit).

(** [a + b]: concatenation as soon as one side is, or turns into, a string,
    else the sum of the two numbers, rounded to what the host can hold. *)
Definition stringy (v : json) : bool :=
  match v with
  | JStr _ | JArr _ | JObj _ => true
  | _ => false
  end.

Definition to_number (v : json) : Z :=
  match v with
  | JNum n => to_binary64 n
  | JBool true => 1
  | _ => 0
  end.

Definition plus (a b : json) : json :=
  if stringy a || stringy b
  then JStr (Js.to_string a ++ Js.to_string b)
  else JNum (to_binary64 (to_number a + to_number b)).

(** [x || 0] *)
Definition or_zero (x : option json) : json :=
  match x with
  | Some v => if Js.truthy v then v else JNum 0
  | None => JNum 0
  end.

(** [items.reduce((acc, r) => acc + (r.stargazers_count || 0), acc)] *)
Fixpoint reduce_stars (acc : json) (items : list json) : Exn + json :=
  match items with
  | [] => inr acc
  | r :: rest =>
      match Js.prop r "stargazers_count" with
      | inl e => inl e
      | inr x => reduce_stars (plus acc (or_zero x)) rest
      end
  end.

Definition totalStars (repos : json) : Exn + json :=
  match items_of repos with
  | inl e => inl e
  | inr items => reduce_stars (JNum 0) items
  end.

(** [items.map(r => r.language).filter(Boolean)] *)
Fixpoint languages_of (items : list json) : Exn + list json :=
  match items with
  | [] => inr []
  | r :: rest =>
      match Js.prop r "language" with
      | inl e => inl e
      | inr x =>
          match languages_of rest with
          | inl e => inl e
          | inr more =>
              inr (match x with
                   | Some v => if Js.truthy v then v :: more else more
                   | None => more
                   end)
          end
      end
  end.

(** [v === a] on values that are not objects. *)
Definition strict_equal (a v : json) : bool :=
  match a, v with
  | JNull, JNull => true
  | JBool x, JBool y => Bool.eqb x y
  | JNum x, JNum y => x =? y
  | JStr x, JStr y => String.eqb x y
  | _, _ => false
  end.

(** [languages.filter(v => v === a).length] for an [a] taken from
    [languages]: an array or an object is equal to itself alone. *)
Definition occurrences (languages : list json) (a : json) : Z :=
  match a with
  | JArr _ | JObj _ => 1
  | _ => Z.of_nat (List.length (List.filter (strict_equal a) languages))
  end.

(** The comparator of the sort, over the languages as they stand before
    the sort. *)
Definition by_frequency (languages : list json) (a b : json) : Exn + option Z :=
  inr (Some (occurrences languages a - occurrences languages b)).

(** [array.pop()]: the last item, if any. *)
Definition pop (items : list json) : option json := List.last (List.map Some items) None.

(** [languages.sort(...).pop() || 'None'] *)
Definition most_frequent (languages : list json) : Exn + json :=
  match JsArray.sort_items (by_frequency languages) languages with
  | inl e => inl e
  | inr sorted =>
      inr (match pop sorted with
           | Some v => if Js.truthy v then v else JStr "None"
           | None => JStr "None"
           end)
  end.

Definition topLang (repos : json) : Exn + json :=
  match items_of repos with
  | inl e => inl e
  | inr items =>
      match languages_of items with
      | inl e => inl e
      | inr languages => most_frequent languages
      end
  end.

(** [stats]: the pair of [totalStars] and [topLang]. *)
Definition stats (repos : json) : Exn + json * json :=
  match totalStars repos with
  | inl e => inl e
  | inr total =>
      match topLang repos with
      | inl e => inl e
      | inr top => inr (total, top)
      end
  end.

(** The featured projects of the dashboard: [repos.slice(0, 6).map(...)]. *)
Definition featured (repos : json) : Exn + list json :=
  match items_of repos with
  | inl e => inl e
  | inr items => inr (firstn 6 items)
  end.

(** [message.split('\n')[0]]: the text before the first line feed. *)
Fixpoint first_line (message : string) : string :=
  match message with
  | EmptyString => EmptyString
  | String c rest =>
      if Ascii.eqb c (ascii_of_nat 10) then EmptyString else String c (first_line rest)
  end.

End Memo.

(** ** The initial fetch, the settings dialog and the sync indicator *)

Section InitialFetch.

Variable Date_parse : string -> option Z.
Variable net : Network.

(** [if (repos.length === 0) fetchRepos()] *)
Definition reposEffect : M unit :=
  st ← getState;
  empty ← lift (Js.length_is_zero (repos st));
  if empty : bool then fetchRepos Date_parse net else mret tt.

End InitialFetch.




(** The text beside the sync light. *)
Definition sync_label (s : Sync.SyncStatus) : string :=
  match s with
  | Sync.loading => "Sync"
  | Sync.success => "Synced"
  | _ => "Failed"
  end.

(** A session: the component as it starts on a given host and store. *)
Definition start (host : gmap string string -> bool) (storage : gmap string string)
  : World :=
  {| app := initial_state storage; localStorage := storage; quota := host;
     requests := []; console := [] |}.

(** ** Vocabulary of the statements *)

(** Fuel that suffices for [JSON.parse_value] to read back the text of a
    value: one unit per value and per element. *)
Fixpoint weight (v : json) : nat :=
  match v with
  | JArr items => S (list_sum (List.map (fun x => S (weight x)) items))
  | JObj members => S (list_sum (List.map (fun '(_, x) => S (weight x)) members))
  | _ => 1
  end.

(** The text goes on with a digit. *)
Definition digit_head (s : string) : bool :=
  match s with
  | String c _ => JSON.is_digit c
  | EmptyString => false
  end.

(** [c] can open the text of a value: no blank and no closing bracket. *)
Definition opens_value (c : ascii) : bool :=
  negb (JSON.is_ws c) && negb (Ascii.eqb c "]") && negb (Ascii.eqb c "}").

(** The outcome the listing ends with: that of the organisation endpoint
    unless it answered 404, else that of the user endpoint. *)
Definition listing_outcome (net : Network) (cfg : Config) : FetchOutcome :=
  match net (listing_request orgs_url cfg) with
  | Resolved res =>
      if status res =? 404 then net (listing_request users_url cfg) else Resolved res
  | Rejected e => Rejected e
  end.

(** The organisation endpoint answered 404. *)
Definition not_found (o : FetchOutcome) : bool :=
  match o with
  | Resolved res => status res =? 404
  | Rejected _ => false
  end.


Section Recency.

Variable Date_parse : string -> option Z.

(** [r] carries an [updated_at] the host reads as a date. *)
Definition dated (r : json) : Prop :=
  exists t, updated_time Date_parse r = inr (Some t).

(** [a] was updated no earlier than [b]. *)
Definition newer_or_same (a b : json) : Prop :=
  exists ta tb,
    updated_time Date_parse a = inr (Some ta)
    /\ updated_time Date_parse b = inr (Some tb)
    /\ tb <= ta.

(** Sorted by [updated_at], most recent first. *)
Definition sorted_by_update (items : list json) : Prop :=
  StronglySorted newer_or_same items.

End Recency.

(** An instance of [Date.parse] for the timestamps the data source writes:
    ISO 8601 in UTC to the second, as in 2024-01-15T10:30:00Z.  Any other
    text is not a date here. *)
Module IsoClock.

Definition digit (c : ascii) : option Z :=
  if JSON.is_digit c then Some (Z.of_nat (nat_of_ascii c) - 48) else None.

Definition two (a b : ascii) : option Z :=
  match digit a, digit b with
  | Some x, Some y => Some (10 * x + y)
  | _, _ => None
  end.

Definition four (a b c d : ascii) : option Z :=
  match two a b, two c d with
  | Some x, Some y => Some (100 * x + y)
  | _, _ => None
  end.

(** Days from 1970-01-01 to the given civil date. *)
Definition days_from_civil (y m d : Z) : Z :=
  let y' := if m <=? 2 then y - 1 else y in
  let era := y' / 400 in
  let yoe := y' - era * 400 in
  let mp := if 2 <? m then m - 3 else m + 9 in
  let doy := (153 * mp + 2) / 5 + d - 1 in
  let doe := yoe * 365 + yoe / 4 - yoe / 100 + doy in
  era * 146097 + doe - 719468.

Definition parse (s : string) : option Z :=
  match s with
  | String y1 (String y2 (String y3 (String y4 (String "-"
      (String m1 (String m2 (String "-" (String d1 (String d2 (String "T"
      (String h1 (String h2 (String ":" (String i1 (String i2 (String ":"
      (String s1 (String s2 (String "Z" EmptyString))))))))))))))))))) =>
      match four y1 y2 y3 y4, two m1 m2, two d1 d2, two h1 h2, two i1 i2, two s1 s2 with
      | Some y, Some m, Some d, Some h, Some i, Some sec =>
          if (1 <=? m) && (m <=? 12) && (1 <=? d) && (d <=? 31)
             && (h <=? 23) && (i <=? 59) && (sec <=? 59)
          then Some ((((days_from_civil y m d * 24 + h) * 60 + i) * 60 + sec) * 1000)
          else None
      | _, _, _, _, _, _ => None
      end
  | _ => None
  end.

End IsoClock.

(** [r] is a repository named [n]; [r] counts [n] stars, none when it
    carries no count. *)
Definition named (r : json) (n : string) : Prop :=
  Js.prop r "name" = inr (Some (JStr n)).

Definition stars_of (r : json) (n : Z) : Prop :=
  exists x, Js.prop r "stargazers_count" = inr x /\ Memo.or_zero x = JNum n.

(** [top] is, among the most frequent of [languages], the one that comes
    last: nothing before it is more frequent, everything after it is less. *)
Definition last_most_frequent (languages : list json) (top : json) : Prop :=
  exists before after,
    languages = (before ++ top :: after)%list
    /\ Forall (fun v => Memo.occurrences languages v <= Memo.occurrences languages top)
         before
    /\ Forall (fun v => Memo.occurrences languages v < Memo.occurrences languages top)
         after.

(** The request [loadContent] sends for a tab. *)
Definition content_request (repo : Repo) (tab : Tab.TabState)
    (headers : gmap string string) : Request :=
  match tab with
  | Tab.readme =>
      {| url := repo_url repo ++ "/readme";
         headers := <[ "Accept" := "application/vnd.github.v3.raw" ]> headers |}
  | Tab.releases => {| url := repo_url repo ++ "/releases"; headers := headers |}
  | Tab.commits =>
      {| url := repo_url repo ++ "/commits?per_page=20"; headers := headers |}
  | Tab.collaborators =>
      {| url := repo_url repo ++ "/contributors"; headers := headers |}
  end.

(** The credential header a configuration calls for. *)
Definition credential (cfg : Config) : option string :=
  if JsString.truthy (token cfg) then Some ("Bearer " ++ token cfg) else None.

(** ** Sample data *)

Definition acme_widgets : Repo :=
  {| id := 1; name := "widgets"; full_name := "acme/widgets"; description := None;
     stargazers_count := 0; updated_at := "2024-01-15T10:30:00Z"; language := None;
     html_url := "https://github.com/acme/widgets"; default_branch := "main";
     homepage := None; license := None; open_issues_count := 0; topics := [] |}.

Definition acme_gadgets : Repo :=
  {| id := 2; name := "gadgets"; full_name := "acme/gadgets"; description := None;
     stargazers_count := 0; updated_at := "2024-02-01T08:00:00Z"; language := None;
     html_url := "https://github.com/acme/gadgets"; default_branch := "";
     homepage := None; license := None; open_issues_count := 0; topics := [] |}.

(** A component just started on an empty store, the same with acme/widgets
    opened from the navigation, and some replies of the data source. *)
Definition empty_world : World :=
  {| app := initial_state ∅; localStorage := ∅; quota := fun _ => true;
     requests := []; console := [] |}.

Definition fresh : System := {| world := empty_world; inflight := [] |}.

Definition widgets_open : System := step fresh (OpenProject acme_widgets).

Definition reply (text : string) : FetchOutcome :=
  Resolved {| status := 200; body := text |}.

Definition no_items : Response := {| status := 200; body := "[]" |}.

(** The error document the data source sends with a 404. *)
Definition not_found_reply : Response :=
  {| status := 404; body := JSON.stringify (JObj [("message", JStr "Not Found")]) |}.

(** Two data sources: one that knows the handle nowhere, and one that knows
    it as a user account and lists what [listing] says. *)
Definition unknown_handle : Network := fun _ => Resolved not_found_reply.

Definition user_account (listing : string) : Network := fun req =>
  if String.eqb (url req) (orgs_url "botxlab")
  then Resolved not_found_reply
  else reply listing.

(** Two repositories, the older one first. *)
Definition older_repo : json :=
  JObj [("id", JNum 7); ("name", JStr "widgets");
        ("updated_at", JStr "2023-11-30T09:00:00Z")].

Definition newer_repo : json :=
  JObj [("id", JNum 9); ("name", JStr "gadgets");
        ("updated_at", JStr "2024-01-15T10:30:00Z")].

Definition two_repos : string := JSON.stringify (JArr [older_repo; newer_repo]).

(** A repository whose [updated_at] is no date, between an old and a
    recent one. *)
Definition undated_repo : json :=
  JObj [("id", JNum 8); ("name", JStr "sprockets"); ("updated_at", JStr "unknown")].

Definition recent_repo : json :=
  JObj [("id", JNum 10); ("name", JStr "levers");
        ("updated_at", JStr "2025-03-01T12:00:00Z")].

Definition mixed_repos : string :=
  JSON.stringify (JArr [older_repo; undated_repo; recent_repo]).


(** A catalog of three repositories, as the navigation lists them. *)
Definition listed (n : string) (language : json) (stars : Z) : json :=
  JObj [("name", JStr n); ("language", language); ("stargazers_count", JNum stars)].

Definition three_repos : list json :=
  [listed "botxlab-core" (JStr "Go") 3; listed "widget" JNull 0;
   listed "Robotics" (JStr "Rust") 5].

(** * Properties *)

(** ** Strings *)

Section StringFacts.
Import JsString.

Lemma startsWith_app (p s : string) : startsWith (p ++ s) p = true.
Proof.
  unfold startsWith. induction p as [|c p IH]; simpl.
  - now destruct s.
  - destruct (Ascii.ascii_dec c c) as [_|n]; [exact IH | now elim n].
Qed.

Lemma startsWith_inv (s p : string) :
  startsWith s p = true -> exists r, s = p ++ r.
Proof.
  unfold startsWith. revert s. induction p as [|c p IH]; intros s H.
  - now exists s.
  - destruct s as [|d s]; simpl in H; [discriminate|].
    destruct (Ascii.ascii_dec c d) as [->|]; [|discriminate].
    destruct (IH _ H) as [r ->]. now exists r.
Qed.

Lemma or_else_empty (s : string) : or_else s "" = s.
Proof. now destruct s. Qed.

Lemma or_else_truthy (s t : string) : truthy (or_else s t) = truthy s || truthy t.
Proof. unfold or_else. now destruct s. Qed.

(** At most one leading "./" goes. *)
Lemma strip_dot_slash_spec (s : string) :
  (exists p, s = "./" ++ p /\ strip_dot_slash s = p)
  \/ (startsWith s "./" = false /\ strip_dot_slash s = s).
Proof.
  destruct s as [|c s]; [now right|].
  destruct (Ascii.ascii_dec c ".") as [->|Hc].
  - destruct s as [|d s]; [now right|].
    destruct (Ascii.ascii_dec d "/") as [->|Hd].
    + left. now exists s.
    + right. split;
        destruct d as [[] [] [] [] [] [] [] []]; try reflexivity; now elim Hd.
  - right. split;
      destruct c as [[] [] [] [] [] [] [] []]; try reflexivity; now elim Hc.
Qed.

End StringFacts.

(** ** The link and image rewriters *)

Section LinkRewriter.
Import JsString.

Lemma img_kept (currentRepo : option Repo) (url : string) :
  startsWith url "http" = true \/ startsWith url "data:" = true ->
  Markdown.img currentRepo (Some url) = url.
Proof.
  intros H. unfold Markdown.img. simpl default. rewrite or_else_empty.
  destruct currentRepo as [repo|]; [|reflexivity].
  destruct H as [-> | ->]; [reflexivity|].
  now rewrite andb_false_r.
Qed.

Lemma a_kept (currentRepo : option Repo) (url : string) :
  startsWith url "http" = true \/ startsWith url "#" = true
  \/ startsWith url "mailto:" = true ->
  Markdown.a currentRepo (Some url) = url.
Proof.
  intros H. unfold Markdown.a. simpl default. rewrite or_else_empty.
  destruct currentRepo as [repo|]; [|reflexivity].
  destruct H as [-> | [-> | ->]]; [reflexivity| |].
  - now rewrite andb_false_r.
  - now rewrite andb_false_r.
Qed.

(** A rewriter either keeps its input or returns an address that begins
    with "http". *)
Lemma img_shape (currentRepo : option Repo) (url : string) :
  Markdown.img currentRepo (Some url) = url
  \/ startsWith (Markdown.img currentRepo (Some url)) "http" = true.
Proof.
  unfold Markdown.img. simpl default. rewrite or_else_empty.
  destruct currentRepo as [repo|]; [|now left].
  destruct (negb (startsWith url "http") && negb (startsWith url "data:"));
    [now right | now left].
Qed.

Lemma a_shape (currentRepo : option Repo) (url : string) :
  Markdown.a currentRepo (Some url) = url
  \/ startsWith (Markdown.a currentRepo (Some url)) "http" = true.
Proof.
  unfold Markdown.a. simpl default. rewrite or_else_empty.
  destruct currentRepo as [repo|]; [|now left].
  destruct (negb (startsWith url "http") && negb (startsWith url "#")
            && negb (startsWith url "mailto:"));
    [now right | now left].
Qed.

Lemma img_idempotent (currentRepo : option Repo) (url : string) :
  Markdown.img currentRepo (Some (Markdown.img currentRepo (Some url)))
  = Markdown.img currentRepo (Some url).
Proof.
  destruct (img_shape currentRepo url) as [H|H].
  - now rewrite !H.
  - apply img_kept. now left.
Qed.

Lemma a_idempotent (currentRepo : option Repo) (url : string) :
  Markdown.a currentRepo (Some (Markdown.a currentRepo (Some url)))
  = Markdown.a currentRepo (Some url).
Proof.
  destruct (a_shape currentRepo url) as [H|H].
  - now rewrite !H.
  - apply a_kept. now left.
Qed.

(** An address with a "data:" prefix has a scheme. *)
Lemma no_scheme_no_data (url : string) :
  UrlSpec.has_scheme url = false -> startsWith url "data:" = false.
Proof.
  intros H. destruct (startsWith url "data:") eqn:E; [|reflexivity].
  apply startsWith_inv in E. destruct E as [r ->]. discriminate H.
Qed.

(** C6, as the code has it.  A link address that begins with "http", "#" or
    "mailto:" is returned unchanged, and so is an image address that begins
    with "http" or "data:"; in particular a fragment link is never
    rewritten.  Both rewriters are idempotent on every input, hence on an
    already absolute one.  With a repository selected every other address
    is replaced: a link address, one with a scheme that does not begin with
    "http" included, by the blob-view address built from it, and an image
    address, one that begins with "#" or "mailto:" included, by the
    raw-content address built from it.  With no repository selected every
    address is returned unchanged. *)
Theorem rewriter_pass_through (currentRepo : option Repo) (url : string) :
  (startsWith url "http" = true \/ startsWith url "#" = true
   \/ startsWith url "mailto:" = true ->
   Markdown.rewrite false currentRepo url = url)
  /\ (startsWith url "http" = true \/ startsWith url "data:" = true ->
      Markdown.rewrite true currentRepo url = url)
  /\ (forall image : bool,
        Markdown.rewrite image currentRepo (Markdown.rewrite image currentRepo url)
        = Markdown.rewrite image currentRepo url)
  /\ (forall repo,
        currentRepo = Some repo ->
        startsWith url "http" = false -> startsWith url "#" = false ->
        startsWith url "mailto:" = false ->
        Markdown.rewrite false currentRepo url
        = "https://github.com/" ++ full_name repo ++ "/blob/"
            ++ or_else (default_branch repo) "master" ++ "/" ++ strip_dot_slash url
        /\ Markdown.rewrite false currentRepo url <> url)
  /\ (forall repo,
        currentRepo = Some repo ->
        startsWith url "http" = false -> startsWith url "data:" = false ->
        Markdown.rewrite true currentRepo url
        = "https://raw.githubusercontent.com/" ++ full_name repo ++ "/"
            ++ or_else (default_branch repo) "master" ++ "/" ++ strip_dot_slash url
        /\ Markdown.rewrite true currentRepo url <> url)
  /\ (currentRepo = None ->
      forall image : bool, Markdown.rewrite image currentRepo url = url).
Proof.
  split; [|split; [|split; [|split; [|split]]]].
  - apply a_kept.
  - apply img_kept.
  - intros [|]; unfold Markdown.rewrite.
    + apply img_idempotent.
    + apply a_idempotent.
  - intros repo -> Hhttp Hfrag Hmail.
    assert (Heq : Markdown.rewrite false (Some repo) url
                  = "https://github.com/" ++ full_name repo ++ "/blob/"
                      ++ or_else (default_branch repo) "master" ++ "/"
                      ++ strip_dot_slash url).
    { unfold Markdown.rewrite, Markdown.a. simpl default.
      now rewrite or_else_empty, Hhttp, Hfrag, Hmail. }
    split; [exact Heq|]. intros Hsame.
    rewrite Heq in Hsame. rewrite <- Hsame in Hhttp. discriminate Hhttp.
  - intros repo -> Hhttp Hdata.
    assert (Heq : Markdown.rewrite true (Some repo) url
                  = "https://raw.githubusercontent.com/" ++ full_name repo ++ "/"
                      ++ or_else (default_branch repo) "master" ++ "/"
                      ++ strip_dot_slash url).
    { unfold Markdown.rewrite, Markdown.img. simpl default.
      now rewrite or_else_empty, Hhttp, Hdata. }
    split; [exact Heq|]. intros Hsame.
    rewrite Heq in Hsame. rewrite <- Hsame in Hhttp. discriminate Hhttp.
  - intros -> [|]; unfold Markdown.rewrite, Markdown.img, Markdown.a;
      simpl default; apply or_else_empty.
Qed.

(** The fragment link and the absolute address of section 8 of the
    specification, and an inline image, pass through. *)
Lemma rewriter_pass_through_witness :
  Markdown.rewrite false (Some acme_widgets) "#section-1" = "#section-1"
  /\ Markdown.rewrite false (Some acme_widgets) "https://example.com/x"
     = "https://example.com/x"
  /\ Markdown.rewrite true (Some acme_widgets) "data:image/png;base64,AAAA"
     = "data:image/png;base64,AAAA".
Proof.
  split; [|split].
  - apply (proj1 (rewriter_pass_through (Some acme_widgets) "#section-1")).
    right; left; reflexivity.
  - apply (proj1 (rewriter_pass_through (Some acme_widgets) "https://example.com/x")).
    left; reflexivity.
  - apply (proj1 (proj2 (rewriter_pass_through (Some acme_widgets)
                           "data:image/png;base64,AAAA"))).
    right; reflexivity.
Defined.

(** C6 as stated fails.  Each of these addresses passes rule 1 of section
    4.4 and yet is rewritten: a link with a scheme other than http, and an
    image whose address is a fragment or a mailto address. *)
Lemma rewriter_pass_through_counterexample :
  UrlSpec.passes_through "ftp://example.com/a.txt" = true
  /\ Markdown.rewrite false (Some acme_widgets) "ftp://example.com/a.txt"
     = "https://github.com/acme/widgets/blob/main/ftp://example.com/a.txt"
  /\ UrlSpec.passes_through "#logo" = true
  /\ Markdown.rewrite true (Some acme_widgets) "#logo"
     = "https://raw.githubusercontent.com/acme/widgets/main/#logo"
  /\ UrlSpec.passes_through "mailto:team@example.com" = true
  /\ Markdown.rewrite true (Some acme_widgets) "mailto:team@example.com"
     = "https://raw.githubusercontent.com/acme/widgets/main/mailto:team@example.com".
Proof. repeat split. Qed.

(** C7, as the code has it.  A relative address (no scheme, not a fragment,
    not a mailto address) that does not begin with "http" loses one leading
    "./"; as an image it becomes the raw-content address, as a link the
    blob-view address, on the default branch, or on "master" when the
    repository names no default branch. *)
Theorem relative_path_rewrite (repo : Repo) (url : string) :
  UrlSpec.passes_through url = false ->
  startsWith url "http" = false ->
  Markdown.rewrite true (Some repo) url
  = "https://raw.githubusercontent.com/" ++ full_name repo ++ "/"
      ++ or_else (default_branch repo) "master" ++ "/" ++ strip_dot_slash url
  /\ Markdown.rewrite false (Some repo) url
     = "https://github.com/" ++ full_name repo ++ "/blob/"
         ++ or_else (default_branch repo) "master" ++ "/" ++ strip_dot_slash url.
Proof.
  intros Hrel Hhttp. unfold UrlSpec.passes_through in Hrel.
  apply orb_false_iff in Hrel. destruct Hrel as [Hrel Hmail].
  apply orb_false_iff in Hrel. destruct Hrel as [Hscheme Hfrag].
  unfold UrlSpec.fragment_only in Hfrag. unfold UrlSpec.is_mailto in Hmail.
  pose proof (no_scheme_no_data url Hscheme) as Hdata.
  unfold Markdown.rewrite, Markdown.img, Markdown.a. simpl default.
  rewrite or_else_empty, Hhttp, Hfrag, Hmail, Hdata. split; reflexivity.
Qed.

(** The example of section 8: an image at "./img/a.png" of acme/widgets on
    main. *)
Lemma relative_path_rewrite_witness :
  Markdown.rewrite true (Some acme_widgets) "./img/a.png"
  = "https://raw.githubusercontent.com/acme/widgets/main/img/a.png"
  /\ Markdown.rewrite false (Some acme_widgets) "./img/a.png"
     = "https://github.com/acme/widgets/blob/main/img/a.png".
Proof.
  apply (relative_path_rewrite acme_widgets "./img/a.png"); reflexivity.
Defined.

(** C7 as stated fails.  "http-api.md" is a relative path, and both
    rewriters leave it as it is; and for a repository without a default
    branch the address is built on "master". *)
Lemma relative_path_rewrite_counterexample :
  UrlSpec.passes_through "http-api.md" = false
  /\ Markdown.rewrite false (Some acme_widgets) "http-api.md" = "http-api.md"
  /\ Markdown.rewrite true (Some acme_widgets) "http-api.md" = "http-api.md"
  /\ default_branch acme_gadgets = ""
  /\ Markdown.rewrite true (Some acme_gadgets) "logo.png"
     = "https://raw.githubusercontent.com/acme/gadgets/master/logo.png".
Proof. repeat split. Qed.

End LinkRewriter.

(** ** Navigation *)

Section Navigation.

(** C10.  Opening a repository from the navigation puts the README tab in
    front and empties the name filter, whatever they were, and leaves the
    repository collection and the persisted cache as they are; the handler
    throws nothing, and the content effect that follows changes none of
    this. *)
Theorem open_project_resets (repo : Repo) (s : System) :
  let opened := step s (OpenProject repo) in
  let loading := step opened ContentEffect in
  fst (handleOpenProject repo (world s)) = inr tt
  /\ (activeTab (app (world opened)) = Tab.readme
      /\ searchTerm (app (world opened)) = ""
      /\ repos (app (world opened)) = repos (app (world s))
      /\ currentRepo (app (world opened)) = Some repo
      /\ view (app (world opened)) = View.project
      /\ localStorage (world opened) = localStorage (world s))
  /\ (activeTab (app (world loading)) = Tab.readme
      /\ searchTerm (app (world loading)) = ""
      /\ repos (app (world loading)) = repos (app (world s))
      /\ localStorage (world loading) = localStorage (world s)).
Proof.
  destruct s as [w pending]. cbn.
  split; [reflexivity|]. split; repeat split; reflexivity.
Qed.

End Navigation.

(** ** The content loader *)

(** Unfolds the sequencing of effects down to functions on worlds. *)
Ltac unfold_effects :=
  unfold exec, loadContent_now, loadContent, await_fetch, fetch, send,
    json_of, text_of, lift, update, getState, localStorage_setItem,
    console_error, try_catch_finally, settled, mbind, mret, mthrow,
    M_bind, M_ret, M_throw, Js.JSON_parse in *.

Section ContentLoader.

(** A call to [loadContent] always reaches its [await]. *)
Lemma loadContent_pending (repo : Repo) (tab : Tab.TabState)
    (headers : gmap string string) (w : World) :
  exists p, fst (loadContent repo tab headers w) = inr p.
Proof. destruct tab; cbn; eauto. Qed.

(** In the project view with a repository selected, the content effect
    puts one more request in flight. *)
Lemma contentEffect_project (s : System) (repo : Repo) :
  view (app (world s)) = View.project ->
  currentRepo (app (world s)) = Some repo ->
  exists p w,
    loadContent repo (activeTab (app (world s))) (getHeaders (config (app (world s))))
      (world s) = (inr p, w)
    /\ contentEffect s = {| world := w; inflight := inflight s ++ [p] |}.
Proof.
  intros Hview Hrepo. unfold contentEffect. rewrite Hview, Hrepo.
  destruct (loadContent_pending repo (activeTab (app (world s)))
              (getHeaders (config (app (world s)))) (world s)) as [p Hp].
  destruct (loadContent _ _ _ _) as [[e|p'] w]; simpl in Hp; [discriminate|].
  exists p', w. split; reflexivity.
Qed.

(** Settling the newest request runs its continuation and retires it. *)
Lemma settle_newest (w : World) (l : list Pending) (p : Pending) (o : FetchOutcome) :
  step {| world := w; inflight := l ++ [p] |} (Settle (length l) o)
  = {| world := exec (resume p o) w; inflight := l |}.
Proof.
  unfold step. cbn [inflight world].
  rewrite list_lookup_middle by reflexivity.
  rewrite delete_middle, app_nil_r. reflexivity.
Qed.

(** The effect followed at once by the settling of its request is a whole
    call of [loadContent]. *)
Lemma effect_then_settle (s : System) (repo : Repo) (o : FetchOutcome) :
  view (app (world s)) = View.project ->
  currentRepo (app (world s)) = Some repo ->
  run s [ContentEffect; Settle (length (inflight s)) o]
  = {| world :=
         exec (loadContent_now (fun _ => o) repo (activeTab (app (world s)))
                 (getHeaders (config (app (world s))))) (world s);
       inflight := inflight s |}.
Proof.
  intros Hview Hrepo.
  destruct (contentEffect_project s repo Hview Hrepo) as (p & w & Hload & Heff).
  unfold run. cbn [fold_left]. change (step s ContentEffect) with (contentEffect s).
  rewrite Heff, settle_newest.
  unfold loadContent_now, exec, mbind, M_bind. rewrite Hload. reflexivity.
Qed.

Lemma select_then_load (s : System) (repo : Repo) (tab : Tab.TabState) (o : FetchOutcome) :
  view (app (world s)) = View.project ->
  currentRepo (app (world s)) = Some repo ->
  run s [SelectTab tab; ContentEffect; Settle (length (inflight s)) o]
  = {| world :=
         exec (loadContent_now (fun _ => o) repo tab (getHeaders (config (app (world s)))))
           (exec (update (Setters.setActiveTab tab)) (world s));
       inflight := inflight s |}.
Proof.
  intros Hview Hrepo.
  change (run s [SelectTab tab; ContentEffect; Settle (length (inflight s)) o])
    with (run (step s (SelectTab tab))
            [ContentEffect; Settle (length (inflight (step s (SelectTab tab)))) o]).
  rewrite (effect_then_settle _ repo) by assumption. reflexivity.
Qed.

(** C4.  With a tab selected in the project view and a reply whose body is
    the empty array, the releases tab ends in failed "No releases found",
    the contributors tab in failed "No contributors found", and the commits
    tab shows an empty list. *)
Theorem empty_result_policy (s : System) (repo : Repo) (res : Response) :
  view (app (world s)) = View.project ->
  currentRepo (app (world s)) = Some repo ->
  JSON.parse (body res) = Some (JArr []) ->
  let shown tab :=
    content_pane
      (app (world (run s [SelectTab tab; ContentEffect;
                          Settle (length (inflight s)) (Resolved res)]))) in
  shown Tab.releases = inr (Failed "No releases found")
  /\ shown Tab.collaborators = inr (Failed "No contributors found")
  /\ shown Tab.commits = inr (CommitsPane []).
Proof.
  intros Hview Hrepo Hbody shown. unfold shown.
  rewrite !(select_then_load s repo) by assumption.
  unfold_effects. cbn -[JSON.parse]. rewrite Hbody. cbn. repeat split.
Qed.

(** Zero releases, zero contributors and zero commits for acme/widgets. *)
Lemma empty_result_policy_witness :
  let shown tab :=
    content_pane
      (app (world (run widgets_open [SelectTab tab; ContentEffect;
                                     Settle 0 (Resolved no_items)]))) in
  shown Tab.releases = inr (Failed "No releases found")
  /\ shown Tab.collaborators = inr (Failed "No contributors found")
  /\ shown Tab.commits = inr (CommitsPane []).
Proof.
  apply (empty_result_policy widgets_open acme_widgets no_items); reflexivity.
Defined.

(** *** What a settled request does *)


(** No exception leaves a continuation, whatever the tab and the outcome;
    it ends the loading state, and it sends no further request. *)
Lemma resume_contained (repo : Repo) (tab : Tab.TabState) (headers : gmap string string)
    (w w1 : World) (p : Pending) (o : FetchOutcome) (w' : World) :
  loadContent repo tab headers w = (inr p, w1) ->
  fst (resume p o w') = inr tt
  /\ contentLoading (app (snd (resume p o w'))) = false
  /\ requests (snd (resume p o w')) = requests w'
  /\ localStorage (snd (resume p o w')) = localStorage w'.
Proof.
  intros Hload. unfold_effects.
  destruct tab; cbn in Hload; inversion Hload; subst; clear Hload;
    cbn -[JSON.parse]; destruct o as [e|res]; cbn -[JSON.parse];
    try (repeat split; reflexivity).
  - destruct (ok res); repeat split; reflexivity.
  - destruct (JSON.parse (body res)) as [data|]; cbn; [|repeat split; reflexivity].
    destruct (Js.length_is_zero data) as [e|[|]]; repeat split; reflexivity.
  - destruct (JSON.parse (body res)) as [data|]; repeat split; reflexivity.
  - destruct (JSON.parse (body res)) as [data|]; cbn; [|repeat split; reflexivity].
    destruct (Js.length_is_zero data) as [e|[|]]; repeat split; reflexivity.
Qed.

(** A transport failure ends in the failed state, with the message of the
    error, or with "Error fetching data" when the error has none. *)
Lemma transport_failure_shown (repo : Repo) (tab : Tab.TabState)
    (headers : gmap string string) (w w1 : World) (p : Pending) (e : Exn) (w' : World) :
  loadContent repo tab headers w = (inr p, w1) ->
  contentError (app (snd (resume p (Rejected e) w')))
  = Some (JsString.or_else (message e) "Error fetching data").
Proof.
  intros Hload. unfold_effects.
  destruct tab; cbn in Hload; inversion Hload; subst; reflexivity.
Qed.

(** Off the README tab the status of the reply plays no part: two replies
    with the same body have the same effect. *)
Lemma list_tabs_ignore_status (repo : Repo) (tab : Tab.TabState)
    (headers : gmap string string) (w w1 : World) (p : Pending)
    (status1 status2 : Z) (text : string) (w' : World) :
  tab <> Tab.readme ->
  loadContent repo tab headers w = (inr p, w1) ->
  resume p (Resolved {| status := status1; body := text |}) w'
  = resume p (Resolved {| status := status2; body := text |}) w'.
Proof.
  intros Htab Hload.
  destruct tab; [congruence | ..]; cbn in Hload; inversion Hload; subst; reflexivity.
Qed.

(** C5, where the code departs from it.  On the releases tab the reply 404
    with the error document of the data source is not a success, and yet
    the tab does not end in the failed state: the document is stored as the
    release collection, no error is recorded, and the pane that maps over
    the collection throws.  The same reply on the README tab does end in
    the failed state. *)
Theorem status_unchecked_on_list_tabs :
  let listed :=
    run widgets_open
      [SelectTab Tab.releases; ContentEffect; Settle 0 (Resolved not_found_reply)] in
  let read := run widgets_open [ContentEffect; Settle 0 (Resolved not_found_reply)] in
  ok not_found_reply = false
  /\ contentLoading (app (world listed)) = false
  /\ contentError (app (world listed)) = None
  /\ releases (app (world listed)) = JObj [("message", JStr "Not Found")]
  /\ content_pane (app (world listed)) = inl Js.not_a_function
  /\ content_pane (app (world read)) = inr (Failed "README not found").
Proof. vm_compute. repeat split. Qed.

(** *** Two requests in flight *)








End ContentLoader.

(** ** The repository listing *)

Section Listing.

Variable Date_parse : string -> option Z.
Variable net : Network.

(** The state a refresh leaves: when the listing fails, when all of it
    succeeds, and when the store refuses the listing. *)
Let failed_from (st : AppState) : AppState :=
  Setters.setReposLoading false
    (Setters.setSyncStatus Sync.failed
       (Setters.setSyncStatus Sync.loading (Setters.setReposLoading true st))).

Let loaded_from (processed : json) (st : AppState) : AppState :=
  Setters.setReposLoading false
    (Setters.setSyncStatus Sync.success
       (Setters.setRepos processed
          (Setters.setSyncStatus Sync.loading (Setters.setReposLoading true st)))).

Let refused_from (processed : json) (st : AppState) : AppState :=
  Setters.setReposLoading false
    (Setters.setSyncStatus Sync.failed
       (Setters.setRepos processed
          (Setters.setSyncStatus Sync.loading (Setters.setReposLoading true st)))).

Local Ltac simp_listing :=
  cbn -[JSON.parse JSON.stringify JSON.print_Z JsArray.sort listing_request insert].

(** Every run of [fetchRepos] is one of three.  The listing fails: the
    error is logged, and neither the collection nor the cache is touched.
    The listing succeeds and the store takes it: the sorted listing is the
    collection and is written to the cache.  The listing succeeds and the
    store refuses it: the sorted listing is the collection already, the
    cache is as it was, and the refusal is logged. *)
Lemma fetchRepos_cases (w : World) :
  let cfg := config (app w) in
  let w' := exec (fetchRepos Date_parse net) w in
  requests w'
  = (requests w ++ listing_request orgs_url cfg
       :: (if not_found (net (listing_request orgs_url cfg))
           then [listing_request users_url cfg] else []))%list
  /\ ((exists e,
         app w' = failed_from (app w)
         /\ localStorage w' = localStorage w
         /\ console w' = (console w ++ [e])%list
         /\ match listing_outcome net cfg with
            | Rejected _ => True
            | Resolved res =>
                ok res = false
                \/ JSON.parse (body res) = None
                \/ exists data e',
                     JSON.parse (body res) = Some data
                     /\ JsArray.sort (by_update_date Date_parse) data = inl e'
            end)
      \/ (exists res data processed,
            listing_outcome net cfg = Resolved res
            /\ ok res = true
            /\ JSON.parse (body res) = Some data
            /\ JsArray.sort (by_update_date Date_parse) data = inr processed
            /\ let stored := <[cache_key := JSON.stringify processed]> (localStorage w) in
               (quota w stored = true
                /\ app w' = loaded_from processed (app w)
                /\ localStorage w' = stored
                /\ console w' = console w)
               \/ (quota w stored = false
                   /\ app w' = refused_from processed (app w)
                   /\ localStorage w' = localStorage w
                   /\ console w' = (console w ++ [quota_exceeded])%list))).
Proof.
  intros cfg w'. subst w'. unfold fetchRepos, listing_outcome, not_found.
  unfold_effects.
  simp_listing.
  fold cfg.
  destruct (net (listing_request orgs_url cfg)) as [e|res]; simp_listing.
  { split; [reflexivity|]. left. exists e. repeat split. }
  destruct (status res =? 404); simp_listing.
  - destruct (net (listing_request users_url cfg)) as [e|res']; simp_listing.
    { rewrite <- app_assoc. split; [reflexivity|]. left. exists e. repeat split. }
    rewrite <- app_assoc.
    destruct (ok res') eqn:Hok; simp_listing.
    + destruct (JSON.parse (body res')) as [data|] eqn:Hparse; simp_listing.
      * destruct (JsArray.sort (by_update_date Date_parse) data) as [e'|processed] eqn:Hsort; simp_listing.
        -- split; [reflexivity|]. left. exists e'. repeat split.
           right; right. exists data, e'. split; [reflexivity | exact Hsort].
        -- destruct (quota w (<[cache_key := JSON.stringify processed]> (localStorage w)))
             eqn:Hquota; simp_listing;
             (split; [reflexivity|]); right; exists res', data, processed;
             (do 4 (split; [assumption || reflexivity|])).
           ++ left. repeat split. exact Hquota.
           ++ right. repeat split. exact Hquota.
      * split; [reflexivity|]. left. eexists. repeat split. right; left; reflexivity.
    + split; [reflexivity|]. left. eexists. repeat split. left; reflexivity.
  - destruct (ok res) eqn:Hok; simp_listing.
    + destruct (JSON.parse (body res)) as [data|] eqn:Hparse; simp_listing.
      * destruct (JsArray.sort (by_update_date Date_parse) data) as [e'|processed] eqn:Hsort; simp_listing.
        -- split; [reflexivity|]. left. exists e'. repeat split.
           right; right. exists data, e'. split; [reflexivity | exact Hsort].
        -- destruct (quota w (<[cache_key := JSON.stringify processed]> (localStorage w)))
             eqn:Hquota; simp_listing;
             (split; [reflexivity|]); right; exists res, data, processed;
             (do 4 (split; [assumption || reflexivity|])).
           ++ left. repeat split. exact Hquota.
           ++ right. repeat split. exact Hquota.
      * split; [reflexivity|]. left. eexists. repeat split. right; left; reflexivity.
    + split; [reflexivity|]. left. eexists. repeat split. left; reflexivity.
Qed.

(** The host is the same after a refresh. *)
Lemma fetchRepos_quota (w : World) :
  quota (exec (fetchRepos Date_parse net) w) = quota w.
Proof.
  unfold fetchRepos. unfold_effects. simp_listing.
  destruct (net (listing_request orgs_url _)) as [e|res]; simp_listing; [reflexivity|].
  destruct (status res =? 404); simp_listing.
  - destruct (net (listing_request users_url _)) as [e|res']; simp_listing; [reflexivity|].
    destruct (ok res'); simp_listing; [|reflexivity].
    destruct (JSON.parse (body res')) as [data|]; simp_listing; [|reflexivity].
    destruct (JsArray.sort (by_update_date Date_parse) data); simp_listing; [reflexivity|].
    destruct (quota w _); reflexivity.
  - destruct (ok res); simp_listing; [|reflexivity].
    destruct (JSON.parse (body res)) as [data|]; simp_listing; [|reflexivity].
    destruct (JsArray.sort (by_update_date Date_parse) data); simp_listing; [reflexivity|].
    destruct (quota w _); reflexivity.
Qed.

(** *** Sorting by update date *)

Lemma newer_or_same_trans (a b c : json) :
  newer_or_same Date_parse a b -> newer_or_same Date_parse b c ->
  newer_or_same Date_parse a c.
Proof.
  intros (ta & tb & Ha & Hb & Hab) (tb' & tc & Hb' & Hc & Hbc).
  rewrite Hb in Hb'. injection Hb' as <-.
  exists ta, tc. repeat split; [assumption | assumption | lia].
Qed.

(** On dated items the comparator is the difference of the two times. *)
Lemma by_update_date_dated (a b : json) (ta tb : Z) :
  updated_time Date_parse a = inr (Some ta) ->
  updated_time Date_parse b = inr (Some tb) ->
  by_update_date Date_parse a b = inr (Some (tb - ta)).
Proof. intros Ha Hb. unfold by_update_date. now rewrite Hb, Ha. Qed.

Lemma insert_sorted (x : json) (l : list json) :
  dated Date_parse x -> Forall (dated Date_parse) l ->
  sorted_by_update Date_parse l ->
  exists r,
    JsArray.insert (by_update_date Date_parse) x l = inr r
    /\ Permutation (x :: l) r
    /\ sorted_by_update Date_parse r.
Proof.
  intros [tx Hx] Hl Hs. induction l as [|y l IH].
  - exists [x]. repeat split; [reflexivity|]. repeat constructor.
  - inversion Hl as [|? ? [ty Hy] Hl']; subst.
    apply StronglySorted_inv in Hs. destruct Hs as [Hs Hy_first].
    cbn [JsArray.insert]. rewrite (by_update_date_dated x y tx ty Hx Hy).
    cbn [JsArray.sorts_after]. destruct (0 <? ty - tx) eqn:Hcmp.
    + destruct (IH Hl' Hs) as (r & -> & Hperm & Hr).
      exists (y :: r). repeat split.
      * rewrite perm_swap. now constructor.
      * constructor; [exact Hr|].
        apply (Permutation_Forall Hperm). constructor; [|exact Hy_first].
        exists ty, tx. apply Z.ltb_lt in Hcmp. repeat split; [assumption..|lia].
    + exists (x :: y :: l). repeat split; [reflexivity|].
      apply Z.ltb_ge in Hcmp.
      assert (Hxy : newer_or_same Date_parse x y)
        by (exists tx, ty; repeat split; [assumption..|lia]).
      constructor; [constructor; assumption|].
      constructor; [exact Hxy|].
      eapply Forall_impl; [exact Hy_first|].
      intros z Hz. exact (newer_or_same_trans x y z Hxy Hz).
Qed.

Lemma sort_items_sorted (l : list json) :
  Forall (dated Date_parse) l ->
  exists r,
    JsArray.sort_items (by_update_date Date_parse) l = inr r
    /\ Permutation l r
    /\ sorted_by_update Date_parse r.
Proof.
  induction l as [|x l IH]; intros Hl.
  - exists []. repeat split; [reflexivity|]. constructor.
  - inversion Hl as [|? ? Hx Hl']; subst.
    destruct (IH Hl') as (s & Hsort & Hperm & Hs).
    destruct (insert_sorted x s Hx) as (r & Hins & Hperm' & Hr).
    + apply (Permutation_Forall Hperm). exact Hl'.
    + exact Hs.
    + exists r. cbn [JsArray.sort_items]. rewrite Hsort. repeat split.
      * exact Hins.
      * rewrite <- Hperm'. now constructor.
      * exact Hr.
Qed.

(** *** Resolution, ordering and the cache *)

(** What the specification calls a resolution error: the failed sync state,
    with the collection and the store as they were. *)
Let resolution_error (w w' : World) : Prop :=
  syncStatus (app w') = Sync.failed
  /\ repos (app w') = repos (app w)
  /\ localStorage w' = localStorage w.

Lemma listing_failure (w : World) :
  match listing_outcome net (config (app w)) with
  | Rejected _ => True
  | Resolved res => ok res = false
  end ->
  resolution_error w (exec (fetchRepos Date_parse net) w).
Proof.
  intros Hfail. destruct (fetchRepos_cases w) as [_ [Hcase|Hcase]].
  - destruct Hcase as (e & Happ & Hstore & _). unfold resolution_error.
    rewrite Happ, Hstore. repeat split.
  - destruct Hcase as (res & data & processed & Hout & Hok & _).
    rewrite Hout, Hok in Hfail. discriminate.
Qed.

(** C2.  The organisation listing is requested first.  The user listing is
    requested, once, exactly when the organisation endpoint answers 404;
    it has the same headers and the same query.  A transport failure, a
    status other than 404 that is not a success, and a failure of the user
    endpoint after a 404 (another 404 included) each end in the failed sync
    state with the collection and the store as they were. *)
Theorem listing_falls_back_once (w : World) :
  let cfg := config (app w) in
  let by_org := listing_request orgs_url cfg in
  let by_user := listing_request users_url cfg in
  let w' := exec (fetchRepos Date_parse net) w in
  requests w'
  = (requests w ++ by_org :: (if not_found (net by_org) then [by_user] else []))%list
  /\ headers by_user = headers by_org
  /\ url by_org = "https://api.github.com/orgs/" ++ org cfg ++ listing_query
  /\ url by_user = "https://api.github.com/users/" ++ org cfg ++ listing_query
  /\ (forall e, net by_org = Rejected e -> resolution_error w w')
  /\ (forall res,
        net by_org = Resolved res -> status res <> 404 -> ok res = false ->
        resolution_error w w')
  /\ (forall res e,
        net by_org = Resolved res -> status res = 404 -> net by_user = Rejected e ->
        resolution_error w w')
  /\ (forall res res',
        net by_org = Resolved res -> status res = 404 ->
        net by_user = Resolved res' -> ok res' = false ->
        resolution_error w w').
Proof.
  intros cfg by_org by_user w'.
  split; [exact (proj1 (fetchRepos_cases w))|].
  do 3 (split; [reflexivity|]).
  split; [|split; [|split]].
  - intros e He. apply listing_failure. unfold listing_outcome.
    fold cfg by_org. now rewrite He.
  - intros res Hres Hstatus Hok. apply listing_failure. unfold listing_outcome.
    fold cfg by_org. rewrite Hres.
    apply Z.eqb_neq in Hstatus. now rewrite Hstatus.
  - intros res e Hres Hstatus He. apply listing_failure. unfold listing_outcome.
    fold cfg by_org by_user. rewrite Hres, Hstatus, Z.eqb_refl. now rewrite He.
  - intros res res' Hres Hstatus Hres' Hok. apply listing_failure.
    unfold listing_outcome. fold cfg by_org by_user.
    rewrite Hres, Hstatus, Z.eqb_refl. now rewrite Hres'.
Qed.

(** C3, as the code has it.  When the listing ends with a success whose
    body is an array of repositories, each with an [updated_at] the host
    reads as a date, the collection in memory holds the same repositories
    sorted by [updated_at], most recent first.  The load is successful
    exactly when the store takes the collection, and then the cache holds
    that very collection, serialised. *)
Theorem catalog_sorted_after_load (w : World) (res : Response) (items : list json) :
  listing_outcome net (config (app w)) = Resolved res ->
  ok res = true ->
  JSON.parse (body res) = Some (JArr items) ->
  Forall (dated Date_parse) items ->
  let w' := exec (fetchRepos Date_parse net) w in
  exists sorted,
    repos (app w') = JArr sorted
    /\ Permutation items sorted
    /\ sorted_by_update Date_parse sorted
    /\ (syncStatus (app w') = Sync.success
        <-> quota w (<[cache_key := JSON.stringify (JArr sorted)]> (localStorage w))
            = true)
    /\ (syncStatus (app w') = Sync.success ->
        localStorage w' !! cache_key = Some (JSON.stringify (JArr sorted))).
Proof.
  intros Hout Hok Hbody Hdated w'.
  destruct (sort_items_sorted items Hdated) as (sorted & Hsort & Hperm & Hsorted).
  destruct (fetchRepos_cases w) as [_ [Hcase|Hcase]].
  - destruct Hcase as (e & _ & _ & _ & Hwhy). rewrite Hout in Hwhy.
    destruct Hwhy as [Hno|[Hno|(data & e' & Hdata & Hno)]].
    + rewrite Hok in Hno. discriminate.
    + rewrite Hbody in Hno. discriminate.
    + rewrite Hbody in Hdata. injection Hdata as <-.
      cbn [JsArray.sort] in Hno. rewrite Hsort in Hno. discriminate.
  - destruct Hcase as (res' & data & processed & Hout' & _ & Hbody' & Hsort' & Hend).
    rewrite Hout in Hout'. injection Hout' as <-.
    rewrite Hbody in Hbody'. injection Hbody' as <-.
    cbn [JsArray.sort] in Hsort'. rewrite Hsort in Hsort'. injection Hsort' as <-.
    cbv zeta in Hend. fold w' in Hend. exists sorted.
    destruct Hend as [(Hquota & Happ & Hstore & _)|(Hquota & Happ & Hstore & _)];
      rewrite Happ, Hstore, Hquota.
    + repeat split; try assumption; try reflexivity.
      intros _. apply lookup_insert_eq.
    + repeat split; try assumption; discriminate.
Qed.


End Listing.

(** ** The JSON codec: reading back what [JSON.stringify] wrote *)

Section JsonCodec.
Import JSON.

#[local] Arguments String.append : simpl nomatch.

Lemma append_assoc (a b c : string) : (a ++ b) ++ c = a ++ (b ++ c).
Proof. induction a as [|x a IH]; cbn [String.append]; [reflexivity | f_equal; exact IH]. Qed.

Lemma append_nil_r (a : string) : a ++ "" = a.
Proof. induction a as [|x a IH]; cbn [String.append]; [reflexivity | f_equal; exact IH]. Qed.

Lemma length_append (a b : string) :
  String.length (a ++ b) = (String.length a + String.length b)%nat.
Proof.
  induction a as [|x a IH]; cbn [String.append String.length]; [reflexivity | now rewrite IH].
Qed.

(** Induction on values, with the hypothesis for every element of an array
    and every member of an object. *)
Lemma json_induction (P : json -> Prop) :
  P JNull ->
  (forall b, P (JBool b)) ->
  (forall n, P (JNum n)) ->
  (forall s, P (JStr s)) ->
  (forall items, Forall P items -> P (JArr items)) ->
  (forall members, Forall (fun kx => P (snd kx)) members -> P (JObj members)) ->
  forall v, P v.
Proof.
  intros Hnull Hbool Hnum Hstr Harr Hobj.
  fix IH 1. intros [ | b | n | s | items | members].
  - exact Hnull.
  - apply Hbool.
  - apply Hnum.
  - apply Hstr.
  - apply Harr. induction items as [|x items IHitems]; constructor.
    + apply IH.
    + exact IHitems.
  - apply Hobj. induction members as [|[k x] members IHmembers]; constructor.
    + apply IH.
    + exact IHmembers.
Qed.

(** *** Strings *)

Lemma parse_quote_char (c : ascii) (tail : string) :
  parse_chars (quote_char c ++ tail) = cons_char c (parse_chars tail).
Proof. destruct c as [[] [] [] [] [] [] [] []]; reflexivity. Qed.

Lemma parse_quote_chars (s rest : string) :
  parse_chars (quote_chars s ++ rest) = Some (s, rest).
Proof.
  induction s as [|c s IH]; [reflexivity|].
  cbn [quote_chars]. rewrite append_assoc, parse_quote_char, IH. reflexivity.
Qed.

(** *** Numbers *)

Lemma span_digits_stop (rest : string) :
  digit_head rest = false -> span_digits rest = (EmptyString, rest).
Proof. destruct rest as [|c rest]; simpl; intros H; [reflexivity | now rewrite H]. Qed.

Lemma span_digits_uint (d : Decimal.uint) (rest : string) :
  digit_head rest = false ->
  span_digits (NilEmpty.string_of_uint d ++ rest) = (NilEmpty.string_of_uint d, rest).
Proof.
  intros H. induction d as [|d IH|d IH|d IH|d IH|d IH|d IH|d IH|d IH|d IH|d IH];
    [now apply span_digits_stop | ..];
    cbn [NilEmpty.string_of_uint String.append span_digits]; rewrite IH; reflexivity.
Qed.

(** The decimal writing of a number has no leading zero, and is not empty. *)
Lemma nzhead_shape (d : Decimal.uint) :
  match Decimal.nzhead d with
  | Decimal.D0 _ => False
  | _ => True
  end.
Proof. induction d; simpl; auto. Qed.

Lemma to_uint_shape (n : N) :
  match N.to_uint n with
  | Decimal.Nil => False
  | Decimal.D0 Decimal.Nil => True
  | Decimal.D0 _ => False
  | _ => True
  end.
Proof.
  assert (H0 : N.to_uint n = Decimal.unorm (N.to_uint n)).
  { rewrite <- DecimalN.Unsigned.to_of. now rewrite DecimalN.Unsigned.of_to. }
  rewrite H0. unfold Decimal.unorm.
  pose proof (nzhead_shape (N.to_uint n)) as H.
  destruct (Decimal.nzhead (N.to_uint n)); simpl; try exact I; contradiction.
Qed.

Lemma digits_value_uint (d : Decimal.uint) :
  match d with
  | Decimal.Nil => False
  | Decimal.D0 Decimal.Nil => True
  | Decimal.D0 _ => False
  | _ => True
  end ->
  digits_value (NilEmpty.string_of_uint d) = Some (N.of_uint d).
Proof.
  intros Hshape. pose proof (NilEmpty.usu d) as Hback.
  destruct d as [|d|d|d|d|d|d|d|d|d|d]; try contradiction;
    [destruct d; try contradiction | ..];
    unfold digits_value; cbn [NilEmpty.string_of_uint] in *; rewrite Hback; reflexivity.
Qed.

Lemma digits_value_print (n : N) : digits_value (print_N n) = Some n.
Proof.
  unfold print_N. rewrite (digits_value_uint _ (to_uint_shape n)).
  now rewrite DecimalN.Unsigned.of_to.
Qed.

Lemma parse_N_print (n : N) (rest : string) :
  digit_head rest = false -> parse_N (print_N n ++ rest) = Some (n, rest).
Proof.
  intros H. unfold parse_N. unfold print_N at 1.
  rewrite span_digits_uint by exact H. fold (print_N n).
  now rewrite digits_value_print.
Qed.

Lemma print_N_head (n : N) :
  exists c s, print_N n = String c s /\ is_digit c = true.
Proof.
  unfold print_N. pose proof (to_uint_shape n) as Hshape.
  destruct (N.to_uint n); [contradiction | ..];
    cbn [NilEmpty.string_of_uint]; eauto.
Qed.

(** A digit opens a number. *)
Lemma parse_value_digit (fuel : nat) (c : ascii) (s : string) :
  is_digit c = true ->
  parse_value (S fuel) (String c s)
  = match parse_N (String c s) with
    | Some (n, r) => Some (JNum (Z.of_N n), r)
    | None => None
    end.
Proof.
  destruct c as [[] [] [] [] [] [] [] []]; intros H; try discriminate H; reflexivity.
Qed.

Lemma parse_print_Z (fuel : nat) (z : Z) (rest : string) :
  digit_head rest = false ->
  parse_value (S fuel) (print_Z z ++ rest) = Some (JNum z, rest).
Proof.
  intros H. destruct z as [|p|p].
  - cbn [print_Z Z.to_N].
    destruct (print_N_head 0) as (c & s & Hs & Hc). rewrite Hs. cbn [String.append].
    rewrite (parse_value_digit _ _ _ Hc).
    change (String c (s ++ rest)) with (String c s ++ rest). rewrite <- Hs.
    now rewrite parse_N_print.
  - cbn [print_Z Z.to_N].
    destruct (print_N_head (Npos p)) as (c & s & Hs & Hc). rewrite Hs. cbn [String.append].
    rewrite (parse_value_digit _ _ _ Hc).
    change (String c (s ++ rest)) with (String c s ++ rest). rewrite <- Hs.
    now rewrite parse_N_print.
  - cbn [print_Z String.append].
    change (parse_value (S fuel) (String "-" (print_N (N.pos p) ++ rest)))
      with (match parse_N (print_N (N.pos p) ++ rest) with
            | Some (n, r) => Some (JNum (- Z.of_N n), r)
            | None => None
            end).
    now rewrite parse_N_print.
Qed.

(** *** Values *)

Lemma digit_opens (c : ascii) : is_digit c = true -> opens_value c = true.
Proof.
  destruct c as [[] [] [] [] [] [] [] []]; intros H; try discriminate H; reflexivity.
Qed.

(** The text of a value opens with a character that is neither a blank nor
    a closing bracket. *)
Lemma stringify_head (v : json) :
  exists c s, stringify v = String c s /\ opens_value c = true.
Proof.
  destruct v as [ | [|] | n | s | items | members]; cbn [stringify].
  - exists "n"%char, "ull". now split.
  - exists "t"%char, "rue". now split.
  - exists "f"%char, "alse". now split.
  - destruct n as [|p|p]; cbn [print_Z].
    + destruct (print_N_head (Z.to_N 0)) as (c & s & -> & Hc).
      exists c, s. split; [reflexivity | now apply digit_opens].
    + destruct (print_N_head (Z.to_N (Z.pos p))) as (c & s & -> & Hc).
      exists c, s. split; [reflexivity | now apply digit_opens].
    + eexists _, _. split; reflexivity.
  - eexists _, _. split; reflexivity.
  - eexists _, _. split; reflexivity.
  - eexists _, _. split; reflexivity.
Qed.

Lemma closing_none (close c : ascii) (s : string) :
  opens_value c = true ->
  close = "]"%char \/ close = "}"%char ->
  closing close (String c s) = None.
Proof.
  unfold opens_value. intros H Hclose.
  apply andb_true_iff in H. destruct H as [H Hbrace].
  apply andb_true_iff in H. destruct H as [Hws Hbracket].
  apply negb_true_iff in Hws, Hbracket, Hbrace.
  unfold closing. cbn [skip_ws]. rewrite Hws.
  destruct Hclose as [-> | ->]; [now rewrite Hbracket | now rewrite Hbrace].
Qed.

(** The equations of the parser that the proofs below follow. *)
Lemma parse_value_string (fuel : nat) (s : string) :
  parse_value (S fuel) (String dquote s)
  = match parse_chars s with
    | Some (str, r) => Some (JStr str, r)
    | None => None
    end.
Proof. reflexivity. Qed.

Lemma parse_value_array (fuel : nat) (s : string) :
  parse_value (S fuel) (String "[" s)
  = match closing "]" s with
    | Some r => Some (JArr [], r)
    | None =>
        match parse_elements fuel s with
        | Some (l, r) => Some (JArr l, r)
        | None => None
        end
    end.
Proof. reflexivity. Qed.

Lemma parse_value_object (fuel : nat) (s : string) :
  parse_value (S fuel) (String "{" s)
  = match closing "}" s with
    | Some r => Some (JObj [], r)
    | None =>
        match parse_members fuel s with
        | Some (m, r) => Some (JObj m, r)
        | None => None
        end
    end.
Proof. reflexivity. Qed.

Lemma parse_elements_step (fuel : nat) (s : string) :
  parse_elements (S fuel) s
  = match parse_value fuel s with
    | Some (v, r) =>
        match skip_ws r with
        | String c r1 =>
            if Ascii.eqb c ","
            then match parse_elements fuel r1 with
                 | Some (l, r2) => Some (v :: l, r2)
                 | None => None
                 end
            else if Ascii.eqb c "]" then Some ([v], r1) else None
        | EmptyString => None
        end
    | None => None
    end.
Proof. reflexivity. Qed.

Lemma parse_members_step (fuel : nat) (k s : string) :
  parse_members (S fuel) (quote k ++ String ":" s)
  = match parse_value fuel s with
    | Some (v, r3) =>
        match skip_ws r3 with
        | String c r4 =>
            if Ascii.eqb c ","
            then match parse_members fuel r4 with
                 | Some (m, r5) => Some ((k, v) :: m, r5)
                 | None => None
                 end
            else if Ascii.eqb c "}" then Some ([(k, v)], r4) else None
        | EmptyString => None
        end
    | None => None
    end.
Proof.
  unfold quote. cbn [String.append].
  change (parse_members (S fuel) (String dquote (quote_chars k ++ String ":" s)))
    with (match parse_chars (quote_chars k ++ String ":" s) with
          | Some (k', r1) =>
              match closing ":" r1 with
              | Some r2 =>
                  match parse_value fuel r2 with
                  | Some (v, r3) =>
                      match skip_ws r3 with
                      | String c r4 =>
                          if Ascii.eqb c ","
                          then match parse_members fuel r4 with
                               | Some (m, r5) => Some ((k', v) :: m, r5)
                               | None => None
                               end
                          else if Ascii.eqb c "}" then Some ([(k', v)], r4) else None
                      | EmptyString => None
                      end
                  | None => None
                  end
              | None => None
              end
          | None => None
          end).
  rewrite parse_quote_chars. reflexivity.
Qed.

(** [v] is read back from its text, whatever follows it, short of a digit. *)
Let reads_back (v : json) : Prop :=
  forall fuel rest,
    (weight v <= fuel)%nat -> digit_head rest = false ->
    parse_value fuel (stringify v ++ rest) = Some (v, rest).

Lemma concat_two (sep x y : string) (l : list string) :
  String.concat sep (x :: y :: l) = x ++ sep ++ String.concat sep (y :: l).
Proof. reflexivity. Qed.

Lemma append_char (c : ascii) (s : string) : String c EmptyString ++ s = String c s.
Proof. reflexivity. Qed.

Lemma skip_ws_comma (s : string) : skip_ws (String "," s) = String "," s.
Proof. reflexivity. Qed.

Lemma elements_read_back (items : list json) :
  items <> [] -> Forall reads_back items ->
  forall fuel rest,
    (list_sum (List.map (fun x => S (weight x)) items) <= fuel)%nat ->
    parse_elements fuel (String.concat "," (List.map stringify items) ++ String "]" rest)
    = Some (items, rest).
Proof.
  induction items as [|x items IH]; [congruence|].
  intros _ Hall fuel rest Hfuel. inversion Hall as [|? ? Hx Hitems]; subst.
  cbn [List.map list_sum fold_right] in Hfuel.
  destruct fuel as [|fuel]; [lia|]. rewrite parse_elements_step.
  destruct items as [|y items].
  - cbn [List.map String.concat].
    rewrite (Hx fuel (String "]" rest)) by (lia || reflexivity).
    reflexivity.
  - cbn [List.map] in IH |- *. rewrite concat_two, !append_assoc, append_char.
    rewrite (Hx fuel) by (lia || reflexivity).
    rewrite skip_ws_comma. change (Ascii.eqb "," ",") with true. cbv iota.
    rewrite IH;
      [reflexivity | congruence | exact Hitems
      | unfold list_sum; cbn [List.map fold_right] in Hfuel |- *; lia].
Qed.

Lemma members_read_back (members : list (string * json)) :
  members <> [] -> Forall (fun kx => reads_back (snd kx)) members ->
  forall fuel rest,
    (list_sum (List.map (fun '(_, x) => S (weight x)) members) <= fuel)%nat ->
    parse_members fuel
      (String.concat ","
         (List.map (fun '(k, x) => quote k ++ ":" ++ stringify x) members)
       ++ String "}" rest)
    = Some (members, rest).
Proof.
  induction members as [|[k x] members IH]; [congruence|].
  intros _ Hall fuel rest Hfuel. inversion Hall as [|? ? Hx Hmembers]; subst.
  cbn [snd] in Hx. cbn [List.map list_sum fold_right] in Hfuel.
  destruct fuel as [|fuel]; [lia|].
  destruct members as [|[k' y] members].
  - cbn [List.map String.concat]. rewrite !append_assoc, append_char.
    rewrite parse_members_step.
    rewrite (Hx fuel (String "}" rest)) by (lia || reflexivity).
    reflexivity.
  - cbn [List.map] in IH |- *. rewrite concat_two, !append_assoc, !append_char.
    rewrite parse_members_step.
    rewrite (Hx fuel) by (lia || reflexivity).
    rewrite skip_ws_comma. change (Ascii.eqb "," ",") with true. cbv iota.
    rewrite IH;
      [reflexivity | congruence | exact Hmembers
      | unfold list_sum; cbn [List.map fold_right] in Hfuel |- *; lia].
Qed.

Lemma value_reads_back (v : json) : reads_back v.
Proof.
  induction v as [ | b | n | s | items IH | members IH] using json_induction;
    intros fuel rest Hfuel Hrest; cbn [weight] in Hfuel;
    (destruct fuel as [|fuel]; [lia|]).
  - reflexivity.
  - destruct b; reflexivity.
  - cbn [stringify]. now apply parse_print_Z.
  - cbn [stringify]. unfold quote. cbn [String.append].
    rewrite parse_value_string, parse_quote_chars. reflexivity.
  - cbn [stringify]. rewrite !append_assoc, !append_char.
    rewrite parse_value_array. destruct items as [|x items]; [reflexivity|].
    destruct (stringify_head x) as (c & s & Hs & Hc).
    assert (Hnone : closing "]"
                      (String.concat "," (List.map stringify (x :: items))
                       ++ String "]" rest) = None).
    { cbn [List.map String.concat]. destruct (List.map stringify items);
        rewrite Hs, ?append_assoc; cbn [String.append];
        apply closing_none; auto. }
    rewrite Hnone. rewrite (elements_read_back (x :: items)); [reflexivity|congruence|exact IH|lia].
  - cbn [stringify]. rewrite !append_assoc, !append_char.
    rewrite parse_value_object. destruct members as [|[k x] members]; [reflexivity|].
    assert (Hnone : closing "}"
                      (String.concat ","
                         (List.map (fun '(k, x) => quote k ++ ":" ++ stringify x)
                            ((k, x) :: members))
                       ++ String "}" rest) = None).
    { cbn [List.map String.concat].
      destruct (List.map (fun '(k, x) => quote k ++ ":" ++ stringify x) members);
        unfold quote; rewrite ?append_assoc; cbn [String.append];
        apply closing_none; auto. }
    rewrite Hnone.
    rewrite (members_read_back ((k, x) :: members)); [reflexivity|congruence|exact IH|lia].
Qed.

(** *** The fuel [JSON.parse] gives is enough *)

Lemma elements_weight (texts : list string) (weights : list nat) :
  Forall2 (fun w t => (w <= String.length t)%nat) weights texts ->
  (list_sum (List.map S weights) <= String.length (String.concat "," texts) + 1)%nat.
Proof.
  induction 1 as [|w t weights texts Hwt Hall IH]; [cbn; lia|].
  cbn [List.map list_sum fold_right]. fold (list_sum (List.map S weights)).
  destruct Hall as [|w' t' weights texts Hwt' Hall].
  - cbn. lia.
  - rewrite concat_two, !length_append. cbn [String.length]. lia.
Qed.

Lemma weight_le_length (v : json) : (weight v <= String.length (stringify v))%nat.
Proof.
  induction v as [ | [|] | n | s | items IH | members IH] using json_induction;
    cbn [weight stringify]; try (cbn; lia).
  - destruct n as [|p|p]; cbn [print_Z].
    + destruct (print_N_head (Z.to_N 0)) as (c & s & -> & _). cbn. lia.
    + destruct (print_N_head (Z.to_N (Z.pos p))) as (c & s & -> & _). cbn. lia.
    + cbn. lia.
  - rewrite !length_append. cbn [String.length].
    pose proof (elements_weight (List.map stringify items) (List.map weight items)) as H.
    rewrite List.map_map in H.
    assert (Hall : Forall2 (fun w t => (w <= String.length t)%nat)
                     (List.map weight items) (List.map stringify items)).
    { clear H. induction IH; cbn [List.map]; constructor; assumption. }
    specialize (H Hall). lia.
  - rewrite !length_append. cbn [String.length].
    pose proof (elements_weight
                  (List.map (fun '(k, x) => quote k ++ ":" ++ stringify x) members)
                  (List.map (fun kx => weight (snd kx)) members)) as H.
    rewrite List.map_map in H.
    assert (Hall : Forall2 (fun w t => (w <= String.length t)%nat)
                     (List.map (fun kx => weight (snd kx)) members)
                     (List.map (fun '(k, x) => quote k ++ ":" ++ stringify x) members)).
    { clear H. induction IH as [|[k x] members Hx Hm IHm]; cbn [List.map]; constructor.
      - cbn [snd] in *. rewrite !length_append. lia.
      - exact IHm. }
    specialize (H Hall).
    assert (Hsame : List.map (fun x => S (weight (snd x))) members
                    = List.map (fun '(_, x) => S (weight x)) members).
    { apply List.map_ext. now intros [k x]. }
    rewrite Hsame in H. lia.
Qed.

(** What [JSON.stringify] writes, [JSON.parse] reads back. *)
Lemma parse_stringify (v : json) : JSON.parse (JSON.stringify v) = Some v.
Proof.
  unfold parse.
  pose proof (value_reads_back v (S (String.length (stringify v))) EmptyString) as H.
  rewrite append_nil_r in H. rewrite H; [reflexivity | | reflexivity].
  pose proof (weight_le_length v). lia.
Qed.

(** The text of a value is never empty. *)
Lemma stringify_truthy (v : json) : JsString.truthy (JSON.stringify v) = true.
Proof. destruct (stringify_head v) as (c & s & -> & _). reflexivity. Qed.

End JsonCodec.

(** ** Startup: rehydrating the collection *)

Section Startup.

Lemma parse_empty : JSON.parse "" = None.
Proof. reflexivity. Qed.

(** Without a saved value the collection starts empty. *)
Lemma initial_repos_absent (storage : gmap string string) :
  storage !! cache_key = None -> initial_repos storage = JArr [].
Proof. intros H. unfold initial_repos. now rewrite H. Qed.

(** A saved value that does not parse is dropped. *)
Lemma initial_repos_unparseable (storage : gmap string string) (saved : string) :
  storage !! cache_key = Some saved -> JSON.parse saved = None ->
  initial_repos storage = JArr [].
Proof.
  intros H Hparse. unfold initial_repos, Js.JSON_parse. rewrite H, Hparse.
  now destruct (JsString.truthy saved).
Qed.

(** A saved value that parses is the collection, array or not. *)
Lemma initial_repos_parsed (storage : gmap string string) (saved : string) (v : json) :
  storage !! cache_key = Some saved -> JSON.parse saved = Some v ->
  initial_repos storage = v.
Proof.
  intros H Hparse. unfold initial_repos, Js.JSON_parse. rewrite H, Hparse.
  destruct saved as [|c saved]; [|reflexivity].
  rewrite parse_empty in Hparse. discriminate.
Qed.

(** C9, as the code has it.  What was written under the cache key is read
    back as the same collection, in the same order; in particular the
    collection a successful load leaves in memory is the one the next
    start rehydrates.  A value that is absent or does not parse gives the
    empty collection.  A value that parses is taken as it is, whatever its
    shape; values under other keys, such as an older version of the cache
    key, are not read. *)
Theorem rehydration (storage : gmap string string) :
  (forall v, initial_repos (<[cache_key := JSON.stringify v]> storage) = v)
  /\ (forall Date_parse net w,
        let w' := exec (fetchRepos Date_parse net) w in
        syncStatus (app w') = Sync.success ->
        initial_repos (localStorage w') = repos (app w'))
  /\ (storage !! cache_key = None -> initial_repos storage = JArr [])
  /\ (forall saved,
        storage !! cache_key = Some saved -> JSON.parse saved = None ->
        initial_repos storage = JArr [])
  /\ (forall saved v,
        storage !! cache_key = Some saved -> JSON.parse saved = Some v ->
        initial_repos storage = v)
  /\ (forall key value,
        key <> cache_key ->
        initial_repos (<[key := value]> storage) = initial_repos storage).
Proof.
  assert (Hback : forall (m : gmap string string) v,
             initial_repos (<[cache_key := JSON.stringify v]> m) = v).
  { intros m v. apply (initial_repos_parsed _ (JSON.stringify v)).
    - apply lookup_insert_eq.
    - apply parse_stringify. }
  split; [apply Hback|]. split; [|split; [|split; [|split]]].
  - intros Date_parse net w w' Hsuccess.
    destruct (fetchRepos_cases Date_parse net w) as [_ [Hcase|Hcase]].
    + destruct Hcase as (e & Happ & _). fold w' in Happ.
      rewrite Happ in Hsuccess. discriminate.
    + destruct Hcase as (res & data & processed & _ & _ & _ & _ & Hend).
      cbv zeta in Hend. fold w' in Hend.
      destruct Hend as [(_ & Happ & Hstore & _)|(_ & Happ & _)].
      * rewrite Happ, Hstore. apply Hback.
      * rewrite Happ in Hsuccess. discriminate.
  - apply initial_repos_absent.
  - apply initial_repos_unparseable.
  - apply initial_repos_parsed.
  - intros key value Hkey. unfold initial_repos.
    now rewrite lookup_insert_ne.
Qed.

(** A collection written and read back; and a value that does not parse. *)
Lemma rehydration_witness :
  initial_repos {[ cache_key := JSON.stringify (JArr [newer_repo; older_repo]) ]}
  = JArr [newer_repo; older_repo]
  /\ initial_repos {[ cache_key := "<html>" ]} = JArr [].
Proof.
  split.
  - apply (proj1 (rehydration ∅)).
  - apply (proj1 (proj2 (proj2 (proj2 (rehydration {[ cache_key := "<html>" ]}))))
             "<html>"); reflexivity.
Defined.

(** C9 as stated fails.  A saved value that is JSON but no array is not
    treated as the empty collection: it becomes the collection, and what
    maps or filters the collection then throws. *)
Lemma mismatched_shape_kept :
  JSON.parse "{}" = Some (JObj [])
  /\ initial_repos {[ cache_key := "{}" ]} = JObj []
  /\ items_of (initial_repos {[ cache_key := "{}" ]}) = inl Js.not_a_function
  /\ initial_repos {[ cache_key := "null" ]} = JNull
  /\ items_of (initial_repos {[ cache_key := "null" ]}) = inl Js.null_access.
Proof. vm_compute. repeat split. Qed.

End Startup.

(** ** The listing on concrete data sources *)

Section ListingExamples.

(** A handle that both endpoints answer with 404: the organisation listing,
    then the user listing, once; the sync state is failed, and nothing is
    fabricated. *)
Lemma listing_falls_back_once_witness :
  let w' := exec (fetchRepos IsoClock.parse unknown_handle) empty_world in
  List.map url (requests w') = [orgs_url "botxlab"; users_url "botxlab"]
  /\ syncStatus (app w') = Sync.failed
  /\ repos (app w') = JArr []
  /\ localStorage w' = ∅.
Proof.
  destruct (listing_falls_back_once IsoClock.parse unknown_handle empty_world)
    as (Hreq & _ & _ & _ & _ & _ & _ & Hboth).
  split.
  - cbv zeta in Hreq. rewrite Hreq. reflexivity.
  - apply (Hboth not_found_reply not_found_reply); reflexivity.
Defined.

(** A user account that lists two repositories, the older one first, on a
    host that takes every write. *)
Lemma catalog_sorted_after_load_witness :
  let w' := exec (fetchRepos IsoClock.parse (user_account two_repos)) empty_world in
  syncStatus (app w') = Sync.success
  /\ exists sorted,
       repos (app w') = JArr sorted
       /\ Permutation [older_repo; newer_repo] sorted
       /\ sorted_by_update IsoClock.parse sorted
       /\ localStorage w' !! cache_key = Some (JSON.stringify (JArr sorted)).
Proof.
  intros w'.
  assert (Hdated : Forall (dated IsoClock.parse) [older_repo; newer_repo]).
  { repeat constructor.
    - exists 1701334800000. reflexivity.
    - exists 1705314600000. reflexivity. }
  destruct (catalog_sorted_after_load IsoClock.parse (user_account two_repos)
              empty_world {| status := 200; body := two_repos |}
              [older_repo; newer_repo] eq_refl eq_refl eq_refl Hdated)
    as (sorted & Hrepos & Hperm & Hsorted & Hsuccess & Hcache).
  fold w' in Hrepos, Hsuccess, Hcache.
  assert (Hdone : syncStatus (app w') = Sync.success)
    by (apply Hsuccess; reflexivity).
  split; [exact Hdone|]. exists sorted. repeat split; auto.
Defined.

(** C3 as stated fails.  The listing holds a repository whose [updated_at]
    the host does not read as a date: the load is successful, and the
    collection in memory, like the copy in the cache, has the repository
    of 2023 before the one of 2025. *)
Lemma undated_item_unsorted :
  let w' := exec (fetchRepos IsoClock.parse (user_account mixed_repos)) empty_world in
  syncStatus (app w') = Sync.success
  /\ repos (app w') = JArr [older_repo; undated_repo; recent_repo]
  /\ localStorage w' !! cache_key = Some mixed_repos
  /\ updated_time IsoClock.parse older_repo = inr (Some 1701334800000)
  /\ updated_time IsoClock.parse undated_repo = inr None
  /\ updated_time IsoClock.parse recent_repo = inr (Some 1740830400000).
Proof. vm_compute. repeat split. Qed.


(** The same load, computed: the newer repository comes first. *)
Example two_repos_loaded :
  let w' := exec (fetchRepos IsoClock.parse (user_account two_repos)) empty_world in
  repos (app w') = JArr [newer_repo; older_repo]
  /\ initial_repos (localStorage w') = JArr [newer_repo; older_repo].
Proof. vm_compute. split; reflexivity. Qed.

End ListingExamples.

(** ** Utils *)

Section UtilsFacts.

(** X1.  [stringToColor] never returns [undefined]: for [null] and for the
    empty string it returns the neutral colour, and for any other string
    one of the six colours of its palette. *)
Theorem stringToColor_in_palette (str : option string) :
  exists c,
    Utils.stringToColor str = Some c
    /\ match str with
       | Some (String _ _) => In c Utils.colors
       | _ => c = Utils.neutral
       end.
Proof.
  destruct str as [[|a s]|]; [now eexists | | now eexists].
  unfold Utils.stringToColor. cbn [JsString.truthy].
  set (hash := Utils.hash_chars 0 (String a s)).
  change (Z.of_nat (List.length Utils.colors)) with 6.
  set (i := Z.to_nat (Z.abs hash mod 6)).
  assert (Hi : (i < 6)%nat).
  { subst i. assert (H6 : 0 < 6) by lia.
    pose proof (Z.mod_pos_bound (Z.abs hash) 6 H6). lia. }
  destruct (nth_error Utils.colors i) as [c|] eqn:E.
  - exists c. split; [reflexivity|]. eapply nth_error_In. exact E.
  - apply nth_error_None in E. cbn [Utils.colors List.length] in E. lia.
Qed.

Variable Date_parse : string -> option Z.
Variable now : Z.

(** X2.  A date the host cannot read, a date in the future and a date less
    than 61 seconds old are all shown as "Just now". *)
Theorem timeAgo_just_now (dateString : string) :
  match Date_parse dateString with
  | Some t => now - t < 61000
  | None => True
  end ->
  timeAgo Date_parse now dateString = "Just now".
Proof.
  intros H. unfold timeAgo, elapsed_seconds. cbn [Date_getTime].
  destruct (Date_parse dateString) as [t|]; [|reflexivity].
  assert (Hs : (now - t) / 1000 <= 60)
    by (apply Z.lt_succ_r; apply Z.div_lt_upper_bound; lia).
  unfold exceeds.
  repeat match goal with
         | |- context [?k <? ?x] =>
             replace (k <? x) with false by (symmetry; apply Z.ltb_ge; lia)
         end.
  reflexivity.
Qed.

(** X3.  Whatever [timeAgo] prints other than "Just now" is a whole number
    of units, at least one: 1 to 60 minutes, 1 to 24 hours, 1 to 30 days,
    1 to 12 months, or one year and more; the number is the age in seconds
    divided by the length of the unit, rounded down. *)
Theorem timeAgo_counts (dateString : string) :
  timeAgo Date_parse now dateString = "Just now"
  \/ exists s n unit,
       elapsed_seconds Date_parse now dateString = Some s
       /\ timeAgo Date_parse now dateString = JSON.print_Z n ++ unit
       /\ 1 <= n
       /\ ((unit = "m ago" /\ n = s / 60 /\ n <= 60)
           \/ (unit = "h ago" /\ n = s / 3600 /\ n <= 24)
           \/ (unit = "d ago" /\ n = s / 86400 /\ n <= 30)
           \/ (unit = "mo ago" /\ n = s / 2592000 /\ n <= 12)
           \/ (unit = "y ago" /\ n = s / 31536000)).
Proof.
  unfold timeAgo. destruct (elapsed_seconds Date_parse now dateString) as [s|];
    [|left; reflexivity].
  unfold exceeds, in_units.
  destruct (31536000 <? s) eqn:Hy;
    [|destruct (2592000 <? s) eqn:Hmo;
      [|destruct (86400 <? s) eqn:Hd;
        [|destruct (3600 <? s) eqn:Hh;
          [|destruct (60 <? s) eqn:Hm; [|left; reflexivity]]]]];
    right;
    repeat match goal with
           | H : (_ <? _) = true |- _ => apply Z.ltb_lt in H
           | H : (_ <? _) = false |- _ => apply Z.ltb_ge in H
           end.
  - exists s, (s / 31536000), "y ago". repeat split.
    + apply Z.div_le_lower_bound; lia.
    + do 4 right. now split.
  - exists s, (s / 2592000), "mo ago". repeat split.
    + apply Z.div_le_lower_bound; lia.
    + do 3 right. left. repeat split.
      apply Z.lt_succ_r. apply Z.div_lt_upper_bound; lia.
  - exists s, (s / 86400), "d ago". repeat split.
    + apply Z.div_le_lower_bound; lia.
    + do 2 right. left. repeat split.
      apply Z.lt_succ_r. apply Z.div_lt_upper_bound; lia.
  - exists s, (s / 3600), "h ago". repeat split.
    + apply Z.div_le_lower_bound; lia.
    + right. left. repeat split.
      apply Z.lt_succ_r. apply Z.div_lt_upper_bound; lia.
  - exists s, (s / 60), "m ago". repeat split.
    + apply Z.div_le_lower_bound; lia.
    + left. repeat split.
      apply Z.lt_succ_r. apply Z.div_lt_upper_bound; lia.
Qed.

End UtilsFacts.

(** A commit of 59 seconds ago, and one whose date is no date. *)
Lemma timeAgo_just_now_witness :
  timeAgo IsoClock.parse 1705314600000 "2024-01-15T10:29:01Z" = "Just now"
  /\ timeAgo IsoClock.parse 1705314600000 "yesterday" = "Just now".
Proof.
  split.
  - apply (timeAgo_just_now IsoClock.parse 1705314600000 "2024-01-15T10:29:01Z").
    vm_compute. reflexivity.
  - apply (timeAgo_just_now IsoClock.parse 1705314600000 "yesterday").
    exact I.
Defined.

(** ** The name filter *)

Section NameFilter.
Import Memo.

Lemma includes_empty (s : string) : includes s "" = true.
Proof. destruct s; reflexivity. Qed.

Lemma name_matches_named (term : string) (r : json) (n : string) :
  named r n ->
  name_matches term r = inr (includes (toLowerCase n) (toLowerCase term)).
Proof. unfold named, name_matches, lower_name. now intros ->. Qed.

(** X4.  On a catalog whose repositories all have a name, the filter keeps
    exactly the repositories whose lower-cased name contains the
    lower-cased search term, and keeps them in the order of the catalog. *)
Theorem filteredRepos_selects (items : list json) (term : string) :
  Forall (fun r => exists n, named r n) items ->
  exists kept,
    filteredRepos (JArr items) term = inr kept
    /\ sublist kept items
    /\ forall r n,
         In r items -> named r n ->
         (In r kept <-> includes (toLowerCase n) (toLowerCase term) = true).
Proof.
  unfold filteredRepos. cbn [items_of].
  induction 1 as [|x items [nx Hx] Hall IH].
  - exists []. repeat split; try constructor; intros; contradiction.
  - destruct IH as (kept & Hkept & Hsub & Hiff).
    cbn [filter_items]. rewrite (name_matches_named term x nx Hx), Hkept.
    destruct (includes (toLowerCase nx) (toLowerCase term)) eqn:Hm.
    + exists (x :: kept). split; [reflexivity|]. split; [now constructor|].
      intros r n [Heq|Hin] Hr.
      * subst r. unfold named in Hx, Hr. rewrite Hx in Hr. injection Hr as <-.
        split; [now intros _ | now left].
      * specialize (Hiff r n Hin Hr). split.
        -- intros [Heq|Hk].
           ++ subst r. unfold named in Hx, Hr. rewrite Hx in Hr.
              now injection Hr as <-.
           ++ now apply Hiff.
        -- intros Hyes. right. now apply Hiff.
    + exists kept. split; [reflexivity|]. split; [now constructor|].
      intros r n [Heq|Hin] Hr.
      * subst r. unfold named in Hx, Hr. rewrite Hx in Hr. injection Hr as <-.
        rewrite Hm. split; [|discriminate].
        intros Hk.
        assert (Hin : In x items).
        { apply list_elem_of_In. eapply elem_of_sublist; [|exact Hsub].
          now apply list_elem_of_In. }
        apply (Hiff x nx Hin Hx) in Hk. congruence.
      * now apply Hiff.
Qed.

(** X5.  Opening a repository empties the search term, so the navigation
    lists the whole catalog again. *)
Theorem open_project_lists_all (s : System) (repo : Repo) (items : list json) :
  repos (app (world s)) = JArr items ->
  Forall (fun r => exists n, named r n) items ->
  let st := app (world (step s (OpenProject repo))) in
  filteredRepos (repos st) (searchTerm st) = inr items.
Proof.
  intros Hrepos Hall st. subst st. destruct s as [w l]. cbn in Hrepos.
  unfold step, handleOpenProject. unfold_effects. cbn.
  rewrite Hrepos. unfold filteredRepos. cbn [items_of]. clear Hrepos.
  induction Hall as [|x items [nx Hx] Hall IH]; [reflexivity|].
  cbn [filter_items]. rewrite (name_matches_named "" x nx Hx), IH.
  cbn [toLowerCase]. now rewrite includes_empty.
Qed.

(** X6.  The filter throws when the collection is no array, and when one of
    its repositories has no name that is a string. *)
Theorem filteredRepos_throws (repos : json) (term : string) :
  match repos with
  | JArr items => Exists (fun r => forall n, ~ named r n) items
  | _ => True
  end ->
  exists e, filteredRepos repos term = inl e.
Proof.
  unfold filteredRepos.
  destruct repos as [ | b | n | s | items | members]; cbn [items_of];
    try (intros _; eexists; reflexivity).
  induction 1 as [x items Hx | x items Hex IH].
  - cbn [filter_items]. unfold name_matches, lower_name.
    destruct (Js.prop x "name") as [e|[v|]] eqn:E; [now eexists | | now eexists].
    destruct v; try (now eexists). elim (Hx s). exact E.
  - cbn [filter_items]. destruct (name_matches term x) as [e|b]; [now eexists|].
    destruct IH as [e ->]. now eexists.
Qed.

End NameFilter.

(** The search term "bot" against botxlab-core, widget and Robotics. *)
Lemma filteredRepos_selects_witness :
  exists kept,
    Memo.filteredRepos (JArr three_repos) "bot" = inr kept
    /\ sublist kept three_repos
    /\ forall r n,
         In r three_repos -> named r n ->
         (In r kept
          <-> Memo.includes (Memo.toLowerCase n) (Memo.toLowerCase "bot") = true).
Proof.
  apply (filteredRepos_selects three_repos "bot").
  repeat constructor; eexists; reflexivity.
Defined.

Example filter_bot :
  Memo.filteredRepos (JArr three_repos) "bot"
  = inr [listed "botxlab-core" (JStr "Go") 3; listed "Robotics" (JStr "Rust") 5].
Proof. reflexivity. Qed.

Lemma open_project_lists_all_witness :
  let s := {| world := start (fun _ => true) {[ cache_key := JSON.stringify (JArr three_repos) ]};
              inflight := [] |} in
  let st := app (world (step s (OpenProject acme_widgets))) in
  Memo.filteredRepos (repos st) (searchTerm st) = inr three_repos.
Proof.
  apply (open_project_lists_all
           {| world := start (fun _ => true) {[ cache_key := JSON.stringify (JArr three_repos) ]};
              inflight := [] |} acme_widgets three_repos).
  - vm_compute. reflexivity.
  - repeat constructor; eexists; reflexivity.
Defined.

(** A cache that holds an object, and a repository without a name. *)
Lemma filteredRepos_throws_witness :
  (exists e, Memo.filteredRepos (JObj []) "bot" = inl e)
  /\ (exists e, Memo.filteredRepos (JArr [listed "widget" JNull 0; JObj []]) "bot" = inl e).
Proof.
  split.
  - apply (filteredRepos_throws (JObj []) "bot"). exact I.
  - apply (filteredRepos_throws (JArr [listed "widget" JNull 0; JObj []]) "bot").
    right. left. intros n. discriminate.
Defined.

(** ** The statistics of the dashboard *)

Section Statistics.
Import Memo.

Lemma to_binary64_exact (z : Z) : Z.abs z <= 2 ^ 53 -> to_binary64 z = z.
Proof.
  intros H. unfold to_binary64. cbv zeta.
  destruct (Z.abs z <=? 2 ^ 53) eqn:E; [reflexivity|].
  apply Z.leb_gt in E. lia.
Qed.

Lemma reduce_stars_counted (r : json) (n a : Z) (rest : list json) :
  stars_of r n ->
  Z.abs a <= 2 ^ 53 -> Z.abs n <= 2 ^ 53 -> Z.abs (a + n) <= 2 ^ 53 ->
  reduce_stars (JNum a) (r :: rest) = reduce_stars (JNum (a + n)) rest.
Proof.
  intros (x & Hx & Hn) Ha Hn' Hsum. cbn [reduce_stars]. rewrite Hx, Hn.
  unfold plus. cbn [stringy orb to_number].
  now rewrite (to_binary64_exact a Ha), (to_binary64_exact n Hn'),
    (to_binary64_exact (a + n) Hsum).
Qed.

Lemma reduce_stars_sum (items : list json) (counts : list Z) (a : Z) :
  Forall2 stars_of items counts ->
  Z.abs a + fold_right Z.add 0 (List.map Z.abs counts) <= 2 ^ 53 ->
  reduce_stars (JNum a) items = inr (JNum (a + fold_right Z.add 0 counts)).
Proof.
  intros H. revert a.
  induction H as [|r n items counts Hr Hall IH]; intros a Hbound.
  - cbn. now rewrite Z.add_0_r.
  - cbn [List.map fold_right] in Hbound.
    assert (Hrest : 0 <= fold_right Z.add 0 (List.map Z.abs counts)).
    { clear. induction counts as [|c counts IH]; cbn [List.map fold_right]; lia. }
    rewrite (reduce_stars_counted r n a items Hr) by lia.
    rewrite IH by lia. cbn [fold_right]. now rewrite Z.add_assoc.
Qed.

Lemma sum_permuted (f : Z -> Z) (l l' : list Z) :
  Permutation l l' ->
  fold_right Z.add 0 (List.map f l) = fold_right Z.add 0 (List.map f l').
Proof.
  induction 1 as [|x l l' Hperm IH|x y l|l l' l'' H1 IH1 H2 IH2];
    cbn [List.map fold_right]; lia.
Qed.

(** X7.  On a catalog in which every repository carries a whole number of
    stars, or no count at all, such that the counts add up to 2^53 at most
    in magnitude, the total is the sum of the counts, a missing count
    adding nothing, whatever the order of the catalog. *)
Theorem totalStars_sum (items items' : list json) (counts : list Z) :
  Forall2 stars_of items counts ->
  fold_right Z.add 0 (List.map Z.abs counts) <= 2 ^ 53 ->
  Permutation items items' ->
  totalStars (JArr items') = inr (JNum (fold_right Z.add 0 counts)).
Proof.
  intros Hcounts Hbound Hperm. unfold totalStars. cbn [items_of].
  destruct (Permutation_Forall2 Hperm Hcounts) as (counts' & Hperm' & Hcounts').
  rewrite (reduce_stars_sum items' counts' 0 Hcounts').
  - pose proof (sum_permuted (fun z => z) counts counts' Hperm') as Hsum.
    rewrite !map_id in Hsum. now rewrite Hsum.
  - rewrite <- (sum_permuted Z.abs counts counts' Hperm'). cbn [Z.abs]. lia.
Qed.

(** *** The most frequent language *)

Variable languages : list json.

Let frequency (a : json) : Z := occurrences languages a.

Lemma pop_cons (y : json) (l : list json) :
  l <> [] -> pop (y :: l) = pop l.
Proof. unfold pop. destruct l; [congruence | reflexivity]. Qed.

(** Where the sort puts an item: at the end exactly when every item already
    there is less frequent. *)
Lemma insert_by_frequency (x : json) (s : list json) :
  exists r,
    JsArray.insert (by_frequency languages) x s = inr r
    /\ Permutation (x :: s) r
    /\ ((Forall (fun y => frequency y < frequency x) s /\ pop r = Some x)
        \/ (Exists (fun y => frequency x <= frequency y) s /\ pop r = pop s)).
Proof.
  induction s as [|y s IH].
  - exists [x]. split; [reflexivity|]. split; [reflexivity|].
    left. split; [constructor | reflexivity].
  - cbn [JsArray.insert by_frequency JsArray.sorts_after].
    fold (frequency x). fold (frequency y).
    destruct (0 <? frequency x - frequency y) eqn:Hcmp.
    + apply Z.ltb_lt in Hcmp.
      destruct IH as (r & -> & Hperm & Hcase).
      exists (y :: r). split; [reflexivity|]. split.
      * rewrite perm_swap. now constructor.
      * assert (Hr : r <> []).
        { intros ->. symmetry in Hperm. apply Permutation_nil in Hperm.
          discriminate. }
        rewrite (pop_cons y r Hr).
        destruct Hcase as [[Hall Hpop]|[Hex Hpop]].
        -- left. split; [constructor; [lia | exact Hall] | exact Hpop].
        -- right. split; [now right|]. rewrite Hpop.
           destruct s as [|z s]; [inversion Hex|].
           symmetry. apply pop_cons. discriminate.
    + apply Z.ltb_ge in Hcmp.
      exists (x :: y :: s). split; [reflexivity|]. split; [reflexivity|].
      right. split; [left; lia|]. apply pop_cons. discriminate.
Qed.

(** The item the sort leaves last: the latest of the most frequent. *)
Lemma sort_by_frequency (l : list json) :
  exists sorted,
    JsArray.sort_items (by_frequency languages) l = inr sorted
    /\ Permutation l sorted
    /\ match l with
       | [] => sorted = []
       | _ =>
           exists top before after,
             pop sorted = Some top
             /\ l = (before ++ top :: after)%list
             /\ Forall (fun y => frequency y <= frequency top) before
             /\ Forall (fun y => frequency y < frequency top) after
       end.
Proof.
  induction l as [|x l IH].
  - exists []. split; [reflexivity|]. split; [constructor | reflexivity].
  - destruct IH as (s & Hs & Hperm & Hshape).
    destruct (insert_by_frequency x s) as (r & Hr & Hperm' & Hcase).
    exists r. cbn [JsArray.sort_items]. rewrite Hs. split; [exact Hr|]. split.
    { rewrite <- Hperm'. now constructor. }
    destruct Hcase as [[Hall Hpop]|[Hex Hpop]].
    + exists x, [], l. repeat split; [exact Hpop | constructor|].
      eapply Permutation_Forall; [symmetry; exact Hperm | exact Hall].
    + destruct l as [|z l].
      { subst s. inversion Hex. }
      destruct Hshape as (top & before & after & Htop & Hl & Hbefore & Hafter).
      exists top, (x :: before), after. rewrite Hpop. repeat split.
      * exact Htop.
      * cbn [app]. now rewrite Hl.
      * constructor; [|exact Hbefore].
        apply List.Exists_exists in Hex. destruct Hex as (y & Hy & Hle).
        assert (Hin : In y (z :: l))
          by (eapply Permutation_in; [symmetry; exact Hperm | exact Hy]).
        rewrite Hl in Hin. apply in_app_or in Hin.
        destruct Hin as [Hin|[<-|Hin]].
        -- rewrite List.Forall_forall in Hbefore. specialize (Hbefore y Hin). lia.
        -- exact Hle.
        -- rewrite List.Forall_forall in Hafter. specialize (Hafter y Hin). lia.
      * exact Hafter.
Qed.

End Statistics.

Lemma languages_truthy (items languages : list json) :
  Memo.languages_of items = inr languages ->
  Forall (fun v => Js.truthy v = true) languages.
Proof.
  revert languages. induction items as [|r items IH]; intros languages H.
  - injection H as <-. constructor.
  - cbn [Memo.languages_of] in H.
    destruct (Js.prop r "language") as [e|x]; [discriminate|].
    destruct (Memo.languages_of items) as [e|more]; [discriminate|].
    injection H as <-. specialize (IH more eq_refl).
    destruct x as [v|]; [|exact IH].
    destruct (Js.truthy v) eqn:Hv; [constructor; assumption | exact IH].
Qed.

(** X8.  The top language of a catalog is "None" when no repository names
    a language; otherwise it is, among the languages named most often, the
    one whose last mention comes last in the catalog. *)
Theorem topLang_last_most_frequent (items languages : list json) :
  Memo.languages_of items = inr languages ->
  match languages with
  | [] => Memo.topLang (JArr items) = inr (JStr "None")
  | _ => exists top,
           last_most_frequent languages top
           /\ Memo.topLang (JArr items) = inr top
  end.
Proof.
  intros H. unfold Memo.topLang. cbn [items_of]. rewrite H.
  unfold Memo.most_frequent.
  destruct (sort_by_frequency languages languages)
    as (sorted & -> & Hperm & Hshape).
  destruct languages as [|v languages]; [now subst sorted|].
  destruct Hshape as (top & before & after & Hpop & Hl & Hbefore & Hafter).
  exists top. split; [now exists before, after|].
  rewrite Hpop.
  apply languages_truthy in H. rewrite Hl in H.
  apply Forall_app in H. destruct H as [_ H]. inversion H as [|? ? Htop _].
  now rewrite Htop.
Qed.

Lemma totalStars_sum_witness :
  Forall2 stars_of three_repos [3; 0; 5]
  /\ 3 + (0 + (5 + 0)) <= 2 ^ 53
  /\ Permutation three_repos (rev three_repos)
  /\ Memo.totalStars (JArr (rev three_repos)) = inr (JNum 8).
Proof.
  assert (H : Forall2 stars_of three_repos [3; 0; 5]).
  { repeat constructor; eexists; split; reflexivity. }
  assert (Hbound : 3 + (0 + (5 + 0)) <= 2 ^ 53) by (vm_compute; discriminate).
  split; [exact H|]. split; [exact Hbound|]. split; [apply Permutation_rev|].
  exact (totalStars_sum three_repos (rev three_repos) [3; 0; 5] H Hbound
           (Permutation_rev three_repos)).
Defined.

(** Past 2^53 the order matters: the host rounds each partial sum. *)
Example large_totals_depend_on_order :
  Memo.totalStars
    (JArr [listed "a" JNull (2 ^ 53); listed "b" JNull 1; listed "c" JNull 1])
  = inr (JNum 9007199254740992)
  /\ Memo.totalStars
       (JArr [listed "c" JNull 1; listed "b" JNull 1; listed "a" JNull (2 ^ 53)])
     = inr (JNum 9007199254740994).
Proof. vm_compute. split; reflexivity. Qed.

Lemma topLang_last_most_frequent_witness :
  Memo.languages_of three_repos = inr [JStr "Go"; JStr "Rust"]
  /\ exists top,
       last_most_frequent [JStr "Go"; JStr "Rust"] top
       /\ Memo.topLang (JArr three_repos) = inr top.
Proof.
  split; [reflexivity|].
  exact (topLang_last_most_frequent three_repos [JStr "Go"; JStr "Rust"] eq_refl).
Defined.

(** With one mention each, the language mentioned last is the top one. *)
Example tie_goes_to_the_last :
  Memo.stats (JArr three_repos) = inr (JNum 8, JStr "Rust").
Proof. reflexivity. Qed.

(** ** Sessions: refresh, start and settings *)

Section Sessions.

Variable Date_parse : string -> option Z.
Variable net : Network.

Lemma getHeaders_lookup (cfg : Config) :
  getHeaders cfg !! "Authorization" = credential cfg
  /\ getHeaders cfg !! "Accept" = Some "application/vnd.github.v3+json"
  /\ forall k, k <> "Accept" -> k <> "Authorization" -> getHeaders cfg !! k = None.
Proof.
  unfold getHeaders, credential. destruct (JsString.truthy (token cfg)).
  - split; [apply lookup_insert_eq|]. split.
    + rewrite lookup_insert_ne by discriminate. apply lookup_singleton_eq.
    + intros k H1 H2. rewrite lookup_insert_ne by congruence.
      apply lookup_singleton_ne. congruence.
  - split; [apply lookup_singleton_ne; discriminate|]. split.
    + apply lookup_singleton_eq.
    + intros k H1 H2. apply lookup_singleton_ne. congruence.
Qed.

Local Ltac simp_session :=
  cbn -[JSON.parse JSON.stringify JSON.print_Z JsArray.sort listing_request insert].

(** [fetchRepos] catches what its body throws. *)
Lemma fetchRepos_returns (w : World) : fst (fetchRepos Date_parse net w) = inr tt.
Proof.
  unfold fetchRepos. unfold_effects. simp_session.
  destruct (net (listing_request orgs_url _)) as [e|res]; simp_session; [reflexivity|].
  destruct (status res =? 404); simp_session.
  - destruct (net (listing_request users_url _)) as [e|res']; simp_session; [reflexivity|].
    destruct (ok res'); simp_session; [|reflexivity].
    destruct (JSON.parse (body res')) as [data|]; simp_session; [|reflexivity].
    destruct (JsArray.sort (by_update_date Date_parse) data); simp_session;
      [reflexivity|].
    destruct (quota w _); reflexivity.
  - destruct (ok res); simp_session; [|reflexivity].
    destruct (JSON.parse (body res)) as [data|]; simp_session; [|reflexivity].
    destruct (JsArray.sort (by_update_date Date_parse) data); simp_session;
      [reflexivity|].
    destruct (quota w _); reflexivity.
Qed.

(** X9.  A refresh never throws.  It sends the organisation listing and at
    most the user listing after it, each with the credential of the
    configuration.  Of the state it changes the catalog, the sync status
    and the loading flag, which it leaves off, and nothing else; the
    console receives one error exactly when the refresh fails. *)
Theorem refresh_frame (w : World) :
  let cfg := config (app w) in
  let w' := exec (fetchRepos Date_parse net) w in
  fst (fetchRepos Date_parse net w) = inr tt
  /\ (exists sent,
        requests w' = (requests w ++ sent)%list
        /\ (1 <= length sent <= 2)%nat
        /\ Forall (fun r => headers r !! "Authorization" = credential cfg) sent)
  /\ app w'
     = Setters.setReposLoading false
         (Setters.setSyncStatus (syncStatus (app w'))
            (Setters.setRepos (repos (app w')) (app w)))
  /\ ((syncStatus (app w') = Sync.success /\ console w' = console w)
      \/ (syncStatus (app w') = Sync.failed
          /\ exists e, console w' = (console w ++ [e])%list)).
Proof.
  intros cfg w'. split; [apply fetchRepos_returns|].
  destruct (fetchRepos_cases Date_parse net w) as [Hreq Hcase].
  fold cfg w' in Hreq, Hcase. split.
  { eexists. split; [exact Hreq|].
    pose proof (getHeaders_lookup cfg) as [Hauth _].
    destruct (not_found _); cbn [length]; (split; [lia|]); repeat constructor;
      exact Hauth. }
  destruct Hcase as [(e & Happ & _ & Hconsole & _)
                    |(res & data & processed & _ & _ & _ & _ & Hend)].
  - split.
    + rewrite Happ. destruct (app w); reflexivity.
    + right. rewrite Happ. split; [reflexivity | now exists e].
  - cbv zeta in Hend.
    destruct Hend as [(_ & Happ & _ & Hconsole)|(_ & Happ & _ & Hconsole)].
    + split.
      * rewrite Happ. destruct (app w); reflexivity.
      * left. rewrite Happ. split; [reflexivity | exact Hconsole].
    + split.
      * rewrite Happ. destruct (app w); reflexivity.
      * right. rewrite Happ. split; [reflexivity | now exists quota_exceeded].
Qed.

(** *** The content requests *)

Lemma loadContent_request (repo : Repo) (tab : Tab.TabState)
    (headers : gmap string string) (w : World) :
  exists p,
    loadContent repo tab headers w
    = (inr p,
       {| app := (if tab is Tab.readme then Setters.setReadmeContent "" else fun st => st)
                   (Setters.setContentError None
                      (Setters.setContentLoading true (app w)));
          localStorage := localStorage w;
          quota := quota w;
          requests := (requests w ++ [content_request repo tab headers])%list;
          console := console w |})
    /\ request p = content_request repo tab headers.
Proof.
  destruct (loadContent_pending repo tab headers w) as [p Hp]. exists p.
  assert (Hw : snd (loadContent repo tab headers w)
               = {| app := (if tab is Tab.readme then Setters.setReadmeContent ""
                            else fun st => st)
                             (Setters.setContentError None
                                (Setters.setContentLoading true (app w)));
                    localStorage := localStorage w;
                    quota := quota w;
                    requests := (requests w ++ [content_request repo tab headers])%list;
                    console := console w |})
    by (destruct tab; reflexivity).
  split.
  - rewrite <- Hw, <- Hp. now destruct (loadContent repo tab headers w).
  - destruct tab; cbn in Hp; injection Hp as <-; reflexivity.
Qed.

(** X10.  In the project view the content effect sends one request, to the
    address of the active tab under the repository.  It carries the
    credential exactly when a token is configured, asks for the raw
    document on the README tab and for JSON on the others, and has no
    other header. *)
Theorem content_request_headers (s : System) (repo : Repo) :
  view (app (world s)) = View.project ->
  currentRepo (app (world s)) = Some repo ->
  let st := app (world s) in
  exists r,
    requests (world (contentEffect s)) = (requests (world s) ++ [r])%list
    /\ url r
       = "https://api.github.com/repos/" ++ full_name repo
         ++ match activeTab st with
            | Tab.readme => "/readme"
            | Tab.releases => "/releases"
            | Tab.commits => "/commits?per_page=20"
            | Tab.collaborators => "/contributors"
            end
    /\ headers r !! "Authorization" = credential (config st)
    /\ headers r !! "Accept"
       = Some (if activeTab st is Tab.readme
               then "application/vnd.github.v3.raw"
               else "application/vnd.github.v3+json")
    /\ forall k, k <> "Accept" -> k <> "Authorization" -> headers r !! k = None.
Proof.
  intros Hview Hrepo st.
  destruct (contentEffect_project s repo Hview Hrepo) as (p & w & Hload & ->).
  destruct (loadContent_request repo (activeTab st) (getHeaders (config st)) (world s))
    as (p' & Hload' & _).
  fold st in Hload. rewrite Hload' in Hload. injection Hload as _ <-.
  destruct (getHeaders_lookup (config st)) as (Hauth & Haccept & Hother).
  exists (content_request repo (activeTab st) (getHeaders (config st))).
  split; [reflexivity|].
  destruct (activeTab st); cbn [content_request url headers repo_url].
  - split; [reflexivity|]. split; [|split].
    + rewrite lookup_insert_ne by discriminate. exact Hauth.
    + apply lookup_insert_eq.
    + intros k H1 H2. rewrite lookup_insert_ne by congruence. now apply Hother.
  - split; [reflexivity|]. repeat split; assumption.
  - split; [reflexivity|]. repeat split; assumption.
  - split; [reflexivity|]. repeat split; assumption.
Qed.

(** X11.  A load against a data source that answers at once never throws,
    whatever the tab and the answer.  It sends the one request of the tab,
    ends with the loading flag off, and leaves the store, the console, the
    catalog, the configuration and the selection as they were. *)
Theorem load_is_contained (repo : Repo) (tab : Tab.TabState)
    (headers : gmap string string) (w : World) :
  let w' := exec (loadContent_now net repo tab headers) w in
  fst (loadContent_now net repo tab headers w) = inr tt
  /\ requests w' = (requests w ++ [content_request repo tab headers])%list
  /\ contentLoading (app w') = false
  /\ localStorage w' = localStorage w
  /\ console w' = console w
  /\ repos (app w') = repos (app w)
  /\ config (app w') = config (app w)
  /\ currentRepo (app w') = currentRepo (app w)
  /\ view (app w') = view (app w)
  /\ activeTab (app w') = activeTab (app w).
Proof.
  intros w'. subst w'. unfold_effects.
  destruct tab; cbn -[JSON.parse];
    destruct (net _) as [e|res]; cbn -[JSON.parse];
    try (repeat split; reflexivity).
  - destruct (ok res); repeat split; reflexivity.
  - destruct (JSON.parse (body res)) as [data|]; cbn; [|repeat split; reflexivity].
    destruct (Js.length_is_zero data) as [e|[|]]; repeat split; reflexivity.
  - destruct (JSON.parse (body res)) as [data|]; repeat split; reflexivity.
  - destruct (JSON.parse (body res)) as [data|]; cbn; [|repeat split; reflexivity].
    destruct (Js.length_is_zero data) as [e|[|]]; repeat split; reflexivity.
Qed.

(** X12.  When the request is rejected, the pane is the error panel, on
    every tab: it shows the message of the error, or "Error fetching data"
    when the error has none.  What the other tabs hold stays. *)
Theorem transport_failure_pane (repo : Repo) (tab : Tab.TabState)
    (headers : gmap string string) (w : World) (e : Exn) :
  net (content_request repo tab headers) = Rejected e ->
  let w' := exec (loadContent_now net repo tab headers) w in
  content_pane (app w')
  = inr (Failed (JsString.or_else (message e) "Error fetching data"))
  /\ releases (app w') = releases (app w)
  /\ commits (app w') = commits (app w)
  /\ collaborators (app w') = collaborators (app w)
  /\ readmeContent (app w')
     = (if tab is Tab.readme then "" else readmeContent (app w)).
Proof.
  intros Hnet w'. subst w'. unfold content_pane, loadContent_now.
  destruct (loadContent_request repo tab headers w) as (p & Hload & Hreq).
  unfold exec, mbind, M_bind. rewrite Hload, Hreq, Hnet.
  pose proof (or_else_truthy (message e) "Error fetching data") as Htruthy.
  rewrite orb_true_r in Htruthy.
  unfold_effects.
  destruct tab; cbn in Hload; injection Hload as <-; cbn;
    rewrite Htruthy; repeat split; reflexivity.
Qed.

(** *** Starting on a store *)

(** X13.  When the component starts with a collection of length zero, the
    initial fetch is a refresh, on whatever host.  Its first request is the
    organisation listing of the stored handle, of "botxlab" when none or an
    empty one is stored, and it carries the stored token when there is
    one. *)
Theorem cold_start (host : gmap string string -> bool) (storage : gmap string string) :
  Js.length_is_zero (initial_repos storage) = inr true ->
  let w0 := start host storage in
  let handle :=
    match storage !! "botxlab_org" with
    | Some h => if JsString.truthy h then h else "botxlab"
    | None => "botxlab"
    end in
  let bearer :=
    match storage !! "botxlab_token" with
    | Some t => if JsString.truthy t then Some ("Bearer " ++ t) else None
    | None => None
    end in
  reposEffect Date_parse net w0 = fetchRepos Date_parse net w0
  /\ exists r more,
       requests (exec (reposEffect Date_parse net) w0) = r :: more
       /\ url r = orgs_url handle
       /\ headers r !! "Authorization" = bearer.
Proof.
  intros Hempty w0 handle bearer.
  assert (Heff : reposEffect Date_parse net w0 = fetchRepos Date_parse net w0).
  { unfold reposEffect, mbind, M_bind, getState, lift.
    change (repos (app w0)) with (initial_repos storage). now rewrite Hempty. }
  split; [exact Heff|]. unfold exec. rewrite Heff.
  destruct (fetchRepos_cases Date_parse net w0) as [Hreq _].
  unfold exec in Hreq. rewrite Hreq.
  change (requests w0) with (@nil Request). cbn [app].
  eexists _, _. split; [reflexivity|].
  change (config (app w0)) with (initial_config storage).
  split.
  - cbn [listing_request url]. f_equal. unfold initial_config, handle. cbn [org].
    destruct (storage !! "botxlab_org") as [[|c h]|]; reflexivity.
  - cbn [listing_request headers].
    rewrite (proj1 (getHeaders_lookup (initial_config storage))).
    unfold credential, initial_config, bearer. cbn [token].
    destruct (storage !! "botxlab_token") as [[|c t]|]; reflexivity.
Qed.

(** X14.  After a load that succeeded on a listing of dated repositories,
    the component started again on the same host and on the store the load
    left holds the same collection.
    Unless the listing was empty it sends nothing on its own, whatever the
    data source, and its sync indicator, with no refresh behind it, reads
    "Failed".  After an empty listing the start is a refresh again. *)
Theorem warm_start (w : World) (res : Response) (items : list json) (net' : Network) :
  listing_outcome net (config (app w)) = Resolved res ->
  ok res = true ->
  JSON.parse (body res) = Some (JArr items) ->
  Forall (dated Date_parse) items ->
  syncStatus (app (exec (fetchRepos Date_parse net) w)) = Sync.success ->
  let w' := exec (fetchRepos Date_parse net) w in
  let w0 := start (quota w') (localStorage w') in
  repos (app w0) = repos (app w')
  /\ reposEffect Date_parse net' w0
     = (if items is [] then fetchRepos Date_parse net' w0 else (inr tt, w0))
  /\ sync_label (syncStatus (app w0)) = "Failed".
Proof.
  intros Hout Hok Hbody Hdated Hsuccess w' w0.
  destruct (sort_items_sorted Date_parse items Hdated) as (sorted & Hsort & Hperm & _).
  destruct (fetchRepos_cases Date_parse net w) as [_ [Hcase|Hcase]].
  { destruct Hcase as (e & _ & _ & _ & Hwhy). rewrite Hout in Hwhy.
    destruct Hwhy as [Hno|[Hno|(data & e' & Hdata & Hno)]].
    - rewrite Hok in Hno. discriminate.
    - rewrite Hbody in Hno. discriminate.
    - rewrite Hbody in Hdata. injection Hdata as <-.
      cbn [JsArray.sort] in Hno. rewrite Hsort in Hno. discriminate. }
  destruct Hcase as (res' & data & processed & Hout' & _ & Hbody' & Hsort' & Hend).
  rewrite Hout in Hout'. injection Hout' as <-.
  rewrite Hbody in Hbody'. injection Hbody' as <-.
  cbn [JsArray.sort] in Hsort'. rewrite Hsort in Hsort'. injection Hsort' as <-.
  cbv zeta in Hend. fold w' in Hend, Hsuccess.
  destruct Hend as [(_ & Happ & Hstore & _)|(_ & Happ & _)];
    [|rewrite Happ in Hsuccess; discriminate].
  assert (Hrepos : repos (app w0) = JArr sorted).
  { change (repos (app w0)) with (initial_repos (localStorage w')). rewrite Hstore.
    apply (initial_repos_parsed _ (JSON.stringify (JArr sorted))).
    - apply lookup_insert_eq.
    - apply parse_stringify. }
  split; [rewrite Hrepos, Happ; reflexivity|]. split; [|reflexivity].
  unfold reposEffect, mbind, M_bind, getState, lift. rewrite Hrepos.
  destruct items as [|x items].
  - apply Permutation_nil in Hperm. now subst sorted.
  - destruct sorted as [|y sorted]; [|reflexivity].
    symmetry in Hperm. apply Permutation_nil in Hperm. discriminate.
Qed.

(** *** The settings dialog *)


(** *** The featured projects *)

Lemma sorted_split (l1 l2 : list json) :
  sorted_by_update Date_parse (l1 ++ l2) ->
  Forall (fun a => Forall (newer_or_same Date_parse a) l2) l1.
Proof.
  unfold sorted_by_update. induction l1 as [|a l1 IH]; intros H; [constructor|].
  cbn [app] in H. inversion H as [|? ? Hs Hall]; subst. constructor.
  - apply Forall_app in Hall. apply Hall.
  - now apply IH.
Qed.

(** X16.  After a load that succeeded on a listing of dated repositories,
    the dashboard features the first six of the collection, all of it when
    it has fewer: each featured repository was updated no earlier than
    each of the others. *)
Theorem featured_are_newest (w : World) (res : Response) (items : list json) :
  listing_outcome net (config (app w)) = Resolved res ->
  ok res = true ->
  JSON.parse (body res) = Some (JArr items) ->
  Forall (dated Date_parse) items ->
  let w' := exec (fetchRepos Date_parse net) w in
  reposLoading (app w') = false
  /\ exists top others,
       Memo.featured (repos (app w')) = inr top
       /\ Permutation items (top ++ others)
       /\ length top = Nat.min 6 (length items)
       /\ Forall (fun a => Forall (newer_or_same Date_parse a) others) top.
Proof.
  intros Hout Hok Hbody Hdated w'.
  destruct (sort_items_sorted Date_parse items Hdated) as (sorted & Hsort & Hperm & Hsorted).
  destruct (fetchRepos_cases Date_parse net w) as [_ [Hcase|Hcase]].
  { destruct Hcase as (e & _ & _ & _ & Hwhy). rewrite Hout in Hwhy.
    destruct Hwhy as [Hno|[Hno|(data & e' & Hdata & Hno)]].
    - rewrite Hok in Hno. discriminate.
    - rewrite Hbody in Hno. discriminate.
    - rewrite Hbody in Hdata. injection Hdata as <-.
      cbn [JsArray.sort] in Hno. rewrite Hsort in Hno. discriminate. }
  destruct Hcase as (res' & data & processed & Hout' & _ & Hbody' & Hsort' & Hend).
  rewrite Hout in Hout'. injection Hout' as <-.
  rewrite Hbody in Hbody'. injection Hbody' as <-.
  cbn [JsArray.sort] in Hsort'. rewrite Hsort in Hsort'. injection Hsort' as <-.
  cbv zeta in Hend. fold w' in Hend.
  assert (Happ : reposLoading (app w') = false /\ repos (app w') = JArr sorted)
    by (destruct Hend as [(_ & -> & _)|(_ & -> & _)]; split; reflexivity).
  destruct Happ as [-> ->]. split; [reflexivity|].
  exists (firstn 6 sorted), (skipn 6 sorted). split; [reflexivity|].
  rewrite firstn_skipn. split; [exact Hperm|]. split.
  - rewrite length_firstn. now rewrite (Permutation_length Hperm).
  - apply sorted_split. now rewrite firstn_skipn.
Qed.

End Sessions.

Lemma content_request_headers_witness :
  view (app (world widgets_open)) = View.project
  /\ currentRepo (app (world widgets_open)) = Some acme_widgets
  /\ exists r,
       requests (world (contentEffect widgets_open)) = [r]
       /\ url r = "https://api.github.com/repos/acme/widgets/readme"
       /\ headers r !! "Authorization" = None
       /\ headers r !! "Accept" = Some "application/vnd.github.v3.raw"
       /\ forall k, k <> "Accept" -> k <> "Authorization" -> headers r !! k = None.
Proof.
  split; [reflexivity|]. split; [reflexivity|].
  exact (content_request_headers widgets_open acme_widgets eq_refl eq_refl).
Defined.

(** The network is down while the releases of acme/widgets load. *)
Lemma transport_failure_pane_witness :
  let offline : Network :=
    fun _ => Rejected {| kind := TypeError; message := "Failed to fetch" |} in
  let w' := exec (loadContent_now offline acme_widgets Tab.releases ∅) empty_world in
  content_pane (app w') = inr (Failed "Failed to fetch")
  /\ releases (app w') = JArr []
  /\ commits (app w') = JArr []
  /\ collaborators (app w') = JArr []
  /\ readmeContent (app w') = "".
Proof.
  intros offline.
  exact (transport_failure_pane offline acme_widgets Tab.releases ∅ empty_world
           {| kind := TypeError; message := "Failed to fetch" |} eq_refl).
Defined.

(** An account of acme with a token, and no cached collection. *)
Lemma cold_start_witness :
  let storage : gmap string string :=
    <[ "botxlab_org" := "acme" ]> {[ "botxlab_token" := "t0ken" ]} in
  Js.length_is_zero (initial_repos storage) = inr true
  /\ exists r more,
       requests (exec (reposEffect IsoClock.parse unknown_handle)
                   (start (fun _ => true) storage))
       = r :: more
       /\ url r = orgs_url "acme"
       /\ headers r !! "Authorization" = Some "Bearer t0ken".
Proof.
  intros storage. split; [reflexivity|].
  exact (proj2 (cold_start IsoClock.parse unknown_handle (fun _ => true) storage
                  eq_refl)).
Defined.

(** The user account of two repositories, then a start on what it left. *)
Lemma warm_start_witness :
  let w' := exec (fetchRepos IsoClock.parse (user_account two_repos)) empty_world in
  let w0 := start (quota w') (localStorage w') in
  syncStatus (app w') = Sync.success
  /\ repos (app w0) = repos (app w')
  /\ reposEffect IsoClock.parse unknown_handle w0 = (inr tt, w0)
  /\ sync_label (syncStatus (app w0)) = "Failed".
Proof.
  split; [reflexivity|].
  apply (warm_start IsoClock.parse (user_account two_repos) empty_world
           {| status := 200; body := two_repos |} [older_repo; newer_repo]
           unknown_handle).
  - reflexivity.
  - reflexivity.
  - reflexivity.
  - repeat constructor.
    + exists 1701334800000. reflexivity.
    + exists 1705314600000. reflexivity.
  - reflexivity.
Defined.

Lemma featured_are_newest_witness :
  let w' := exec (fetchRepos IsoClock.parse (user_account two_repos)) empty_world in
  reposLoading (app w') = false
  /\ exists top others,
       Memo.featured (repos (app w')) = inr top
       /\ Permutation [older_repo; newer_repo] (top ++ others)
       /\ length top = 2%nat
       /\ Forall (fun a => Forall (newer_or_same IsoClock.parse a) others) top.
Proof.
  apply (featured_are_newest IsoClock.parse (user_account two_repos) empty_world
           {| status := 200; body := two_repos |} [older_repo; newer_repo]).
  - reflexivity.
  - reflexivity.
  - reflexivity.
  - repeat constructor.
    + exists 1701334800000. reflexivity.
    + exists 1705314600000. reflexivity.
Defined.

(** ** What the lists show *)

Section Rendering.
Import Memo.

Lemma prefix_line_feed (c : ascii) (s : string) :
  String.prefix (String (ascii_of_nat 10) "") (String c s) = Ascii.eqb c (ascii_of_nat 10).
Proof.
  cbn [String.prefix]. destruct (ascii_dec (ascii_of_nat 10) c) as [<-|Hc].
  - rewrite Ascii.eqb_refl. now destruct s.
  - symmetry. apply Ascii.eqb_neq. congruence.
Qed.

(** X17.  The summary of a commit is its message up to the first line
    feed: it holds no line feed; it is the whole message when that holds
    none, and else the message is the summary, a line feed and a rest. *)
Theorem first_line_cut (message : string) :
  let line_feed := String (ascii_of_nat 10) "" in
  includes (first_line message) line_feed = false
  /\ ((includes message line_feed = false /\ first_line message = message)
      \/ exists rest, message = first_line message ++ line_feed ++ rest).
Proof.
  intros line_feed. subst line_feed. induction message as [|c s [IH1 IH2]].
  - split; [reflexivity|]. left. split; reflexivity.
  - cbn [first_line]. destruct (Ascii.eqb c (ascii_of_nat 10)) eqn:Hc.
    + split; [reflexivity|]. right. exists s.
      apply Ascii.eqb_eq in Hc. subst c. reflexivity.
    + split.
      * cbn [includes]. now rewrite prefix_line_feed, Hc.
      * destruct IH2 as [[Hno Hs]|[rest Hrest]].
        -- left. split.
           ++ cbn [includes]. now rewrite prefix_line_feed, Hc.
           ++ now rewrite Hs.
        -- right. exists rest.
           change (String c s
                   = String c (first_line s ++ String (ascii_of_nat 10) "" ++ rest)).
           f_equal. exact Hrest.
Qed.







End Rendering.
